(** * Catalog-based URI resolution and schema extraction helpers

    A shallow embedding of [crates/xsd/src/extract_schema.py]: the text
    catalog parser and the URI mapper it returns ([create_uri_mapper],
    [uri_mapper]) and the extraction helpers over the schema object graph
    ([extract_element_info], [extract_type_info],
    [extract_complex_type_info], [extract_simple_type_info]).

    Python strings are sequences of Unicode code points, the catalog
    dictionary is an insertion-ordered association list, exceptions are an
    error monad, and the objects supplied by the schema library are values
    with a class name, a truth value, a textual form and named attributes,
    probed with [hasattr] as the source does. *)

From Stdlib Require Import ZArith NArith Ascii String List Lia DecimalString.
From stdpp Require Import base tactics option list numbers strings.

Local Open Scope N_scope.

(** ** Python strings *)

(** A Python [str] is a sequence of code points. *)
Definition codepoint : Type := N.
Definition pystr : Type := list codepoint.

(** An ASCII literal of the source, as a Python string. *)
Definition py (s : string) : pystr :=
  map N_of_ascii (list_ascii_of_string s).
Arguments py s%_string.

Definition DQUOTE : codepoint := 34.
Definition PERCENT : codepoint := 37.
Definition SLASH : codepoint := 47.
Definition LF : codepoint := 10.
Definition CR : codepoint := 13.
Definition REPLACEMENT : codepoint := 65533.

(** A value between double quotes, as it is written in a catalog line. *)
Definition quoted (s : pystr) : pystr := DQUOTE :: s ++ [DQUOTE].

Definition pystr_eqb (a b : pystr) : bool := bool_decide (a = b).

(** [s.startswith(prefix)] *)
Fixpoint startswith (s prefix : pystr) {struct prefix} : bool :=
  match prefix with
  | [] => true
  | p :: prefix' =>
      match s with
      | c :: s' => (c =? p) && startswith s' prefix'
      | [] => false
      end
  end.

(** [needle in s] for strings *)
Fixpoint contains (s needle : pystr) : bool :=
  startswith s needle ||
  match s with
  | [] => false
  | _ :: s' => contains s' needle
  end.

(** The code points [str.isspace] accepts, which [str.strip()] removes. *)
Definition is_space (c : codepoint) : bool :=
  ((9 <=? c) && (c <=? 13)) || ((28 <=? c) && (c <=? 32))
  || (c =? 133) || (c =? 160) || (c =? 5760)
  || ((8192 <=? c) && (c <=? 8202))
  || (c =? 8232) || (c =? 8233) || (c =? 8239) || (c =? 8287)
  || (c =? 12288).

Fixpoint lstrip (s : pystr) : pystr :=
  match s with
  | [] => []
  | c :: s' => if is_space c then lstrip s' else s
  end.

Definition rstrip (s : pystr) : pystr := rev (lstrip (rev s)).

(** [s.strip()] *)
Definition strip (s : pystr) : pystr := rstrip (lstrip s).

(** [s.split(sep)] for a separator of one character: one more field than
    there are separators, the empty string giving one empty field. *)
Fixpoint str_split (sep : codepoint) (s : pystr) : list pystr :=
  match s with
  | [] => [[]]
  | c :: s' =>
      if c =? sep then [] :: str_split sep s'
      else match str_split sep s' with
           | [] => [[c]]
           | field :: fields => (c :: field) :: fields
           end
  end.

(** [sep.join(fields)] *)
Fixpoint str_join (sep : pystr) (fields : list pystr) : pystr :=
  match fields with
  | [] => []
  | [f] => f
  | f :: fs => f ++ sep ++ str_join sep fs
  end.

(** Truth value of a string: non-empty. *)
Definition str_truthy (s : pystr) : bool :=
  match s with [] => false | _ :: _ => true end.

(** [str(n)] for an integer. *)
Definition str_of_int (z : Z) : pystr :=
  py (NilZero.string_of_int (Z.to_int z)).

(** The lines a text file yields when iterated in text mode with universal
    newlines: each of LF, CR and CR LF ends a line and is read as LF, and the
    terminator stays on the line. *)
Fixpoint readlines (text : pystr) : list pystr :=
  match text with
  | [] => []
  | c :: text' =>
      if c =? LF then [LF] :: readlines text'
      else if c =? CR then
        match text' with
        | d :: text'' =>
            if d =? LF then [LF] :: readlines text''
            else [LF] :: readlines text'
        | [] => [[LF]]
        end
      else match readlines text' with
           | [] => [[c]]
           | line :: lines => (c :: line) :: lines
           end
  end.

(** ** Exceptions *)

Inductive exn : Type :=
| AttributeError
| TypeError
| ValueError
| OSError
| RuntimeError
| OtherError (cls : pystr).

Inductive result (A : Type) : Type :=
| Ok (a : A)
| Raise (e : exn).
Arguments Ok {A} a.
Arguments Raise {A} e.

#[global] Instance result_ret : MRet result := fun A a => Ok a.
#[global] Instance result_bind : MBind result := fun A B f m =>
  match m with
  | Ok a => f a
  | Raise e => Raise e
  end.
#[global] Instance result_fmap : FMap result := fun A B f m =>
  match m with
  | Ok a => Ok (f a)
  | Raise e => Raise e
  end.

(** [try: ... except: pass]: the value when the block completes. *)
Definition try_except {A} (m : result A) : option A :=
  match m with
  | Ok a => Some a
  | Raise _ => None
  end.

(** ** urllib.parse.unquote *)

Definition hexval (c : codepoint) : option N :=
  if (48 <=? c) && (c <=? 57) then Some (c - 48)
  else if (65 <=? c) && (c <=? 70) then Some (c - 55)
  else if (97 <=? c) && (c <=? 102) then Some (c - 87)
  else None.

(** [unquote_to_bytes] on an ASCII string: every [%] followed by two
    hexadecimal digits becomes the byte they denote; any other [%] stays. *)
Fixpoint unquote_to_bytes (s : pystr) : list N :=
  match s with
  | [] => []
  | c :: r =>
      if c =? PERCENT then
        match r with
        | h1 :: h2 :: r2 =>
            match hexval h1, hexval h2 with
            | Some a, Some b => (16 * a + b) :: unquote_to_bytes r2
            | _, _ => PERCENT :: unquote_to_bytes r
            end
        | _ => PERCENT :: unquote_to_bytes r
        end
      else c :: unquote_to_bytes r
  end.

Definition is_continuation (b : N) : bool := (128 <=? b) && (b <=? 191).

(** [bytes.decode('utf-8', 'replace')]: every ill-formed sequence (its
    longest prefix that could start a well-formed one, or a single byte) is
    replaced by U+FFFD. *)
Fixpoint utf8_decode_replace (bs : list N) : pystr :=
  match bs with
  | [] => []
  | b1 :: t1 =>
      if b1 <? 128 then b1 :: utf8_decode_replace t1
      else if b1 <? 194 then REPLACEMENT :: utf8_decode_replace t1
      else if b1 <? 224 then
        match t1 with
        | [] => [REPLACEMENT]
        | b2 :: t2 =>
            if is_continuation b2
            then ((b1 - 192) * 64 + (b2 - 128)) :: utf8_decode_replace t2
            else REPLACEMENT :: utf8_decode_replace t1
        end
      else if b1 <? 240 then
        match t1 with
        | [] => [REPLACEMENT]
        | b2 :: t2 =>
            if negb (is_continuation b2)
               || (if b2 <? 160 then b1 =? 224 else b1 =? 237)
            then REPLACEMENT :: utf8_decode_replace t1
            else match t2 with
                 | [] => [REPLACEMENT]
                 | b3 :: t3 =>
                     if is_continuation b3
                     then ((b1 - 224) * 4096 + (b2 - 128) * 64 + (b3 - 128))
                            :: utf8_decode_replace t3
                     else REPLACEMENT :: utf8_decode_replace t2
                 end
        end
      else if b1 <? 245 then
        match t1 with
        | [] => [REPLACEMENT]
        | b2 :: t2 =>
            if negb (is_continuation b2)
               || (if b2 <? 144 then b1 =? 240 else b1 =? 244)
            then REPLACEMENT :: utf8_decode_replace t1
            else match t2 with
                 | [] => [REPLACEMENT]
                 | b3 :: t3 =>
                     if negb (is_continuation b3)
                     then REPLACEMENT :: utf8_decode_replace t2
                     else match t3 with
                          | [] => [REPLACEMENT]
                          | b4 :: t4 =>
                              if is_continuation b4
                              then ((b1 - 240) * 262144 + (b2 - 128) * 4096
                                    + (b3 - 128) * 64 + (b4 - 128))
                                     :: utf8_decode_replace t4
                              else REPLACEMENT :: utf8_decode_replace t3
                          end
                 end
        end
      else REPLACEMENT :: utf8_decode_replace t1
  end.

(** One maximal run of ASCII characters, percent-decoded and read as UTF-8. *)
Definition unquote_run (run : pystr) : pystr :=
  utf8_decode_replace (unquote_to_bytes run).

(** The runs of ASCII characters are decoded, the characters between them
    are kept; [run] holds the current run, last character first. *)
Fixpoint unquote_parts (run : pystr) (s : pystr) : pystr :=
  match s with
  | [] => unquote_run (rev run)
  | c :: r =>
      if c <? 128 then unquote_parts (c :: run) r
      else unquote_run (rev run) ++ c :: unquote_parts [] r
  end.

(** [unquote(string)] with the default [encoding='utf-8'] and
    [errors='replace']. *)
Definition unquote (s : pystr) : pystr :=
  if bool_decide (PERCENT ∈ s) then unquote_parts [] s else s.

(** ** pathlib.PurePosixPath *)

(** A path is its root ([''], ['/'] or ['//']) and the names after it. *)
Record PosixPath : Type := mkPath { root : pystr; tail : list pystr }.

(** [posixpath.splitroot]: one leading slash, or three and more, give the
    root ['/']; exactly two give the root ['//']. *)
Definition splitroot (p : pystr) : pystr * pystr :=
  match p with
  | c1 :: r1 =>
      if c1 =? SLASH then
        match r1 with
        | c2 :: r2 =>
            if c2 =? SLASH then
              match r2 with
              | c3 :: _ => if c3 =? SLASH then ([SLASH], r1)
                           else ([SLASH; SLASH], r2)
              | [] => ([SLASH; SLASH], r2)
              end
            else ([SLASH], r1)
        | [] => ([SLASH], r1)
        end
      else ([], p)
  | [] => ([], p)
  end.

(** A name is kept unless it is empty or ['.']. *)
Definition keep_name (x : pystr) : bool :=
  str_truthy x && negb (pystr_eqb x (py ".")).

(** [PurePosixPath(s)] *)
Definition parse_path (s : pystr) : PosixPath :=
  let '(r, rel) := splitroot s in
  {| root := r; tail := filter (fun x => keep_name x = true) (str_split SLASH rel) |}.

(** [p / s]: an absolute [s] replaces [p], a relative one extends it. *)
Definition joinpath (p : PosixPath) (s : pystr) : PosixPath :=
  let q := parse_path s in
  if str_truthy (root q) then q
  else {| root := root p; tail := tail p ++ tail q |}.

Notation "p </> s" := (joinpath p s) (at level 40, left associativity).

(** [p.parent]: a path without names is its own parent. *)
Definition parent (p : PosixPath) : PosixPath :=
  match tail p with
  | [] => p
  | _ :: _ => {| root := root p; tail := removelast (tail p) |}
  end.

(** [str(p)] *)
Definition path_str (p : PosixPath) : pystr :=
  match root p ++ str_join [SLASH] (tail p) with
  | [] => py "."
  | s => s
  end.

(** ** The catalog dictionary *)

(** A Python [dict] from strings to strings, in insertion order. *)
Definition dict : Type := list (pystr * pystr).

(** [d.get(k)] *)
Fixpoint dict_get (d : dict) (k : pystr) : option pystr :=
  match d with
  | [] => None
  | (k', v) :: d' => if pystr_eqb k' k then Some v else dict_get d' k
  end.

(** [d[k] = v]: the value of a key already present is replaced where the
    key stands, a new key goes to the end. *)
Fixpoint dict_set (d : dict) (k v : pystr) : dict :=
  match d with
  | [] => [(k, v)]
  | (k', v') :: d' =>
      if pystr_eqb k' k then (k', v) :: d' else (k', v') :: dict_set d' k v
  end.

Definition dict_keys (d : dict) : list pystr := map fst d.

(** ** create_uri_mapper: the catalog parser *)

(** The loop state: [urn_map] and [current_base] ([None] until a BASE line
    with a quoted field is read). *)
Record parser_state : Type := mkState {
  urn_map : dict;
  current_base : option pystr
}.

Definition initial_state : parser_state :=
  {| urn_map := []; current_base := None |}.

(** [if current_base:] *)
Definition base_truthy (b : option pystr) : option pystr :=
  match b with
  | Some (c :: s) => Some (c :: s)
  | _ => None
  end.

(** What one line of the catalog asks for, by the tests of the loop body in
    their order: an empty line or a comment, a BASE line, a URI line, anything
    else. The tests [len(parts) >= 2] and [len(parts) >= 4] with [parts[1]]
    and [parts[3]] are the patterns on the list of fields. *)
Inductive directive : Type :=
| Skip
| SetBase (base : pystr)
| AddUri (urn local_path : pystr).

Definition read_line (raw : pystr) : directive :=
  let line := strip raw in
  if negb (str_truthy line) || startswith line (py "--") then Skip
  else if startswith line (py "BASE") then
    match str_split DQUOTE line with
    | _ :: base :: _ =>
        if startswith base (py "../../") then SetBase (drop 6 base)
        else SetBase base
    | _ => Skip
    end
  else if startswith line (py "URI") then
    match str_split DQUOTE line with
    | _ :: urn :: _ :: local_path :: _ => AddUri urn local_path
    | _ => Skip
    end
  else Skip.

(** Whether a line assigns [current_base], and whether it assigns
    [urn_map[urn]]. *)
Definition changes_base (raw : pystr) : bool :=
  match read_line raw with
  | SetBase _ => true
  | _ => false
  end.

Definition declares (urn : pystr) (raw : pystr) : bool :=
  match read_line raw with
  | AddUri urn' _ => pystr_eqb urn' urn
  | _ => false
  end.

Section Catalog.

(** The file system the parser runs on: [open(path, 'r')] with the whole
    text of the file (or the exception raised when opening, reading or
    decoding it), and [Path.resolve()], which makes a path absolute and
    follows symbolic links, or raises. *)
Variable read_text : pystr -> result pystr.
Variable resolve : PosixPath -> result PosixPath.

(** [full_path] of a URI line. *)
Definition full_path (catalog_dir : PosixPath) (base : option pystr)
    (local_path : pystr) : PosixPath :=
  match base_truthy base with
  | Some b => catalog_dir </> b </> local_path
  | None => catalog_dir </> local_path
  end.

(** One iteration of [for line in f]. *)
Definition process_line (catalog_dir : PosixPath) (st : parser_state)
    (raw : pystr) : result parser_state :=
  match read_line raw with
  | Skip => Ok st
  | SetBase base =>
      Ok {| urn_map := urn_map st; current_base := Some base |}
  | AddUri urn local_path =>
      resolved ← resolve (full_path catalog_dir (current_base st) local_path);
      Ok {| urn_map := dict_set (urn_map st) urn (path_str resolved);
            current_base := current_base st |}
  end.

(** The loop over the lines of the file. *)
Fixpoint parse_lines (catalog_dir : PosixPath) (st : parser_state)
    (lines : list pystr) : result parser_state :=
  match lines with
  | [] => Ok st
  | line :: lines' =>
      st' ← process_line catalog_dir st line;
      parse_lines catalog_dir st' lines'
  end.

(** [catalog_dir = PathLib(catalog_path).parent] *)
Definition catalog_dir_of (catalog_path : pystr) : PosixPath :=
  parent (parse_path catalog_path).

(** The dictionary [urn_map] when the loop is over. *)
Definition parse_catalog (catalog_path : pystr) : result dict :=
  text ← read_text catalog_path;
  st ← parse_lines (catalog_dir_of catalog_path) initial_state (readlines text);
  Ok (urn_map st).

End Catalog.

Definition is_ok {A} (r : result A) : bool :=
  match r with
  | Ok _ => true
  | Raise _ => false
  end.

(** The paths the loop hands to [resolve], in order: the [full_path] of each
    URI line under the base in force when the line is read. *)
Fixpoint requested_paths (catalog_dir : PosixPath) (base : option pystr)
    (lines : list pystr) : list PosixPath :=
  match lines with
  | [] => []
  | line :: lines' =>
      match read_line line with
      | Skip => requested_paths catalog_dir base lines'
      | SetBase b => requested_paths catalog_dir (Some b) lines'
      | AddUri _ local_path =>
          full_path catalog_dir base local_path
          :: requested_paths catalog_dir base lines'
      end
  end.

(** ** uri_mapper: the resolver *)

(** A value together with the keys looked up in [urn_map] to compute it, in
    the order of the lookups. *)
Definition traced (A : Type) : Type := list pystr * A.

(** [a or b] on the results of [urn_map.get]: [b] is evaluated only when [a]
    is [None] or empty. *)
Definition get_truthy (v : option pystr) : option pystr :=
  match v with
  | Some (c :: s) => Some (c :: s)
  | _ => None
  end.

(** [uri_mapper(uri)], with [uri] either [None] or a string. The result of
    [urn_map.get(decoded_uri) or urn_map.get(uri)] is returned when it is
    true, and [uri] otherwise. *)
Definition uri_mapper (urn_map : dict) (uri : option pystr)
    : traced (option pystr) :=
  match uri with
  | None => ([], None)
  | Some u =>
      let decoded_uri := unquote u in
      match get_truthy (dict_get urn_map decoded_uri) with
      | Some resolved => ([decoded_uri], Some resolved)
      | None =>
          match get_truthy (dict_get urn_map u) with
          | Some resolved => ([decoded_uri; u], Some resolved)
          | None => ([decoded_uri; u], Some u)
          end
      end
  end.

(** [create_uri_mapper(catalog_path)]: the closure over the parsed map. *)
Definition create_uri_mapper (read_text : pystr -> result pystr)
    (resolve : PosixPath -> result PosixPath) (catalog_path : pystr)
    : result (option pystr -> traced (option pystr)) :=
  uri_mapper <$> parse_catalog read_text resolve catalog_path.

(** ** A file system without symbolic links *)

(** [..] removes the name before it, and is dropped at the root. *)
Fixpoint normalize (done : list pystr) (names : list pystr) : list pystr :=
  match names with
  | [] => rev done
  | n :: names' =>
      if pystr_eqb n (py "..") then normalize (List.tl done) names'
      else normalize (n :: done) names'
  end.

(** [Path.resolve()] where no name is a symbolic link and the working
    directory is [cwd], an absolute path without [..]: the path is made
    absolute and [..] is resolved by name. A name with a NUL character is
    rejected. *)
Definition resolve_nolinks (cwd : list pystr) (p : PosixPath)
    : result PosixPath :=
  if existsb (fun n => bool_decide (0 ∈ n)) (tail p) then Raise ValueError
  else
    let names := if str_truthy (root p) then tail p else cwd ++ tail p in
    Ok {| root := [SLASH]; tail := normalize [] names |}.

(** ** The objects of the schema library *)

(** A Python value as the extraction helpers see it: [None], a boolean, an
    integer, a string, or an object. An object has the name of its class, the
    truth value [bool(o)] gives it, the text [str(o)] gives it, its
    attributes by name, and, when it can be called without arguments (a bound
    method such as [values] or [iter_elements]), what iterating over the
    result of the call yields: the items, then the exception that ends the
    iteration if one is raised. *)
#[warnings="-register-all"]
Inductive pyval : Type :=
| VNone
| VBool (b : bool)
| VInt (z : Z)
| VStr (s : pystr)
| VObj (cls : pystr) (truth : bool) (text : pystr)
       (attrs : list (string * pyval))
       (call : option (list pyval * option exn)).

Fixpoint assoc {A} (name : string) (l : list (string * A)) : option A :=
  match l with
  | [] => None
  | (n, v) :: l' => if String.eqb n name then Some v else assoc name l'
  end.

(** The attribute [name] of [v], when [hasattr(v, name)] holds. None of the
    names the source probes is an attribute of [None], of a boolean, of an
    integer or of a string. *)
Definition attr_of (v : pyval) (name : string) : option pyval :=
  match v with
  | VObj _ _ _ attrs _ => assoc name attrs
  | _ => None
  end.

Definition hasattr (v : pyval) (name : string) : bool :=
  match attr_of v name with Some _ => true | None => false end.

(** [v.name] *)
Definition getattr (v : pyval) (name : string) : result pyval :=
  match attr_of v name with
  | Some x => Ok x
  | None => Raise AttributeError
  end.

(** [bool(v)] *)
Definition truthy (v : pyval) : bool :=
  match v with
  | VNone => false
  | VBool b => b
  | VInt z => negb (Z.eqb z 0)
  | VStr s => str_truthy s
  | VObj _ truth _ _ _ => truth
  end.

(** [type(v).__name__] *)
Definition class_name (v : pyval) : pystr :=
  match v with
  | VNone => py "NoneType"
  | VBool _ => py "bool"
  | VInt _ => py "int"
  | VStr _ => py "str"
  | VObj cls _ _ _ _ => cls
  end.

(** [str(v)] *)
Definition py_str (v : pyval) : pystr :=
  match v with
  | VNone => py "None"
  | VBool true => py "True"
  | VBool false => py "False"
  | VInt z => str_of_int z
  | VStr s => s
  | VObj _ _ text _ _ => text
  end.

(** [v.name if hasattr(v, name) else d] *)
Definition attr_or (v : pyval) (name : string) (d : pyval) : pyval :=
  match attr_of v name with
  | Some x => x
  | None => d
  end.

(** The value of [v.name] when [hasattr(v, name) and v.name] is true. *)
Definition attr_truthy (v : pyval) (name : string) : option pyval :=
  match attr_of v name with
  | Some x => if truthy x then Some x else None
  | None => None
  end.

(** [a or b] *)
Definition py_or (a b : pyval) : pyval := if truthy a then a else b.

(** Iterating over [m()]: a value that cannot be called raises [TypeError]. *)
Definition iterate (m : pyval) : list pyval * option exn :=
  match m with
  | VObj _ _ _ _ (Some outcome) => outcome
  | _ => ([], Some TypeError)
  end.

(** [list(it)] *)
Definition to_list (it : list pyval * option exn) : result (list pyval) :=
  match it with
  | (items, None) => Ok items
  | (_, Some e) => Raise e
  end.

(** [[f(x) for x in it]]: the items are taken one at a time, so an exception
    of [f] on an item comes before the one that ends the iteration. *)
Definition comprehension {B} (f : pyval -> result B)
    (it : list pyval * option exn) : result (list B) :=
  r ← mapM f it.1;
  match it.2 with
  | None => Ok r
  | Some e => Raise e
  end.

(** ** The extracted descriptions *)

(** The dictionaries the helpers build, one record per shape; a key that the
    source sets only under a condition is an [option] field, [None] when the
    key is not in the dictionary. *)
Record AttributeInfo : Type := mkAttributeInfo {
  attr_name : pyval;
  attr_type : pyval;
  attr_use : pyval;
  attr_default : pyval
}.

Record ChildInfo : Type := mkChildInfo {
  child_name : pyval;
  child_type : pyval;
  child_min_occurs : pyval;
  child_max_occurs : pyval
}.

Record TypeInfo : Type := mkTypeInfo {
  type_name : pyval;
  type_qualified_name : pyval;
  category : pystr;
  is_complex : bool;
  is_simple : bool;
  content_model : option pystr;
  attributes : option (list AttributeInfo);
  child_elements : option (list ChildInfo)
}.

(** ['type'] is [None] for the Python value [None]. *)
Record ElementInfo : Type := mkElementInfo {
  elem_name : pyval;
  elem_qualified_name : pyval;
  elem_type : option TypeInfo;
  min_occurs : pyval;
  max_occurs : pyval;
  nillable : pyval;
  default : pyval
}.

Record SimpleTypeInfo : Type := mkSimpleTypeInfo {
  simple_name : pyval;
  simple_qualified_name : pyval;
  simple_category : pystr;
  base_type : pyval;
  restrictions : pyval
}.

(** ** extract_type_info *)

(** The reference to a declared type: its qualified name when it has a true
    one, and [fallback] of the type otherwise. *)
Definition type_ref (fallback : pyval -> pystr) (ty : pyval) : pyval :=
  match attr_truthy ty "qualified_name" with
  | Some q => q
  | None => VStr (fallback ty)
  end.

(** One entry of [info['attributes']]. *)
Definition attribute_info (attr : pyval) : result AttributeInfo :=
  name ← getattr attr "name";
  ty ← getattr attr "type";
  Ok {| attr_name := py_or name (VStr (py "unknown"));
        attr_type := if truthy ty then type_ref py_str ty
                     else VStr (py "xs:string");
        attr_use := match attr_truthy attr "use" with
                    | Some u => u
                    | None => VStr (py "optional")
                    end;
        attr_default := attr_or attr "default" VNone |}.

(** One entry of [info['child_elements']]. *)
Definition child_info (elem : pyval) : result ChildInfo :=
  qname ← getattr elem "qualified_name";
  name ← (if truthy qname then Ok qname
          else n ← getattr elem "name"; Ok (py_or n (VStr (py "unknown"))));
  ty ← getattr elem "type";
  Ok {| child_name := name;
        child_type := if truthy ty then type_ref class_name ty
                      else VStr (py "unknown");
        child_min_occurs := attr_or elem "min_occurs" (VInt 1);
        child_max_occurs := attr_or elem "max_occurs" (VInt 1) |}.

(** [info['content_model']], set when the type has a true [content]. *)
Definition type_content_model (type_obj : pyval) : option pystr :=
  class_name <$> attr_truthy type_obj "content".

(** [info['attributes']], set when the type has a true [attributes]; an
    exception raised here leaves the function. *)
Definition type_attributes (type_obj : pyval)
    : result (option (list AttributeInfo)) :=
  match attr_truthy type_obj "attributes" with
  | Some attributes =>
      values ← getattr attributes "values";
      Some <$> comprehension attribute_info (iterate values)
  | None => Ok None
  end.

(** [list(content.iter_elements())] *)
Definition list_iter_elements (content : pyval) : result (list pyval) :=
  iter_elements ← getattr content "iter_elements";
  to_list (iterate iter_elements).

(** The body of the [try] block. *)
Definition iter_child_elements (content : pyval)
    : result (option (list ChildInfo)) :=
  elements ← list_iter_elements content;
  match elements with
  | [] => Ok None
  | _ :: _ => Some <$> mapM child_info elements
  end.

(** [info['child_elements']], set when the type has a true [content] with an
    [iter_elements] attribute, the block completes and the list of elements
    is not empty. *)
Definition type_child_elements (type_obj : pyval) : option (list ChildInfo) :=
  match attr_truthy type_obj "content" with
  | Some content =>
      if hasattr content "iter_elements"
      then mjoin (try_except (iter_child_elements content))
      else None
  | None => None
  end.

Definition extract_type_info (type_obj : pyval) : result TypeInfo :=
  attrs ← type_attributes type_obj;
  Ok {| type_name := attr_or type_obj "qualified_name" VNone;
        type_qualified_name := attr_or type_obj "qualified_name" VNone;
        category := class_name type_obj;
        is_complex := contains (class_name type_obj) (py "Complex");
        is_simple := contains (class_name type_obj) (py "Simple");
        content_model := type_content_model type_obj;
        attributes := attrs;
        child_elements := type_child_elements type_obj |}.

(** [v.qualified_name or v.name] *)
Definition qualified_or_name (v : pyval) : result pyval :=
  qname ← getattr v "qualified_name";
  if truthy qname then Ok qname else getattr v "name".

Definition extract_complex_type_info (type_obj : pyval) : result TypeInfo :=
  name ← qualified_or_name type_obj;
  attrs ← type_attributes type_obj;
  Ok {| type_name := name;
        type_qualified_name := name;
        category := class_name type_obj;
        is_complex := true;
        is_simple := false;
        content_model := type_content_model type_obj;
        attributes := attrs;
        child_elements := type_child_elements type_obj |}.

Definition extract_simple_type_info (type_obj : pyval)
    : result SimpleTypeInfo :=
  name ← qualified_or_name type_obj;
  base ← match attr_truthy type_obj "base_type" with
         | Some b => getattr b "qualified_name"
         | None => Ok VNone
         end;
  Ok {| simple_name := name;
        simple_qualified_name := name;
        simple_category := class_name type_obj;
        base_type := base;
        restrictions := VNone |}.

(** ** extract_element_info *)

Definition extract_element_info (element : pyval) : result ElementInfo :=
  name ← qualified_or_name element;
  ty ← getattr element "type";
  type_info ← (if truthy ty then Some <$> extract_type_info ty else Ok None);
  Ok {| elem_name := name;
        elem_qualified_name := name;
        elem_type := type_info;
        min_occurs := attr_or element "min_occurs" (VInt 1);
        max_occurs := attr_or element "max_occurs" (VInt 1);
        nillable := attr_or element "nillable" (VBool false);
        default := attr_or element "default" VNone |}.

(** ** Worked inputs *)

(** The catalog of the specification's example, at [/cat/catalog.xml]. *)
Definition example_path : pystr := py "/cat/catalog.xml".

Definition example_catalog : pystr :=
  py "BASE " ++ quoted (py "../../schemas/") ++ [LF]
  ++ py "URI " ++ quoted (py "urn:example:foo") ++ py " "
  ++ quoted (py "ignored") ++ py " " ++ quoted (py "foo.xsd") ++ [LF].

(** The same catalog with the URI line in its two-field form. *)
Definition example_catalog_two_fields : pystr :=
  py "BASE " ++ quoted (py "../../schemas/") ++ [LF]
  ++ py "URI " ++ quoted (py "urn:example:foo") ++ py " "
  ++ quoted (py "foo.xsd") ++ [LF].

(** A catalog whose only key holds a percent sign. *)
Definition percent_catalog : pystr :=
  py "URI " ++ quoted (py "a%41") ++ py " " ++ quoted (py "p.xsd") ++ [LF].

(** A catalog that declares one name twice, under two bases. *)
Definition twice_catalog : pystr :=
  py "-- schemas" ++ [LF]
  ++ py "URI " ++ quoted (py "urn:x") ++ py " " ++ quoted (py "old.xsd") ++ [LF]
  ++ py "BASE " ++ quoted (py "../../v2/") ++ [LF]
  ++ py "URI " ++ quoted (py "urn:y") ++ py " " ++ quoted (py "y.xsd") ++ [LF]
  ++ py "URI " ++ quoted (py "urn:x") ++ py " " ++ quoted (py "new.xsd") ++ [LF]
  ++ [LF].

(** A file system holding one readable file. *)
Definition single_file (path text : pystr) (p : pystr) : result pystr :=
  if pystr_eqb p path then Ok text else Raise OSError.

(** A bound method whose call yields [items]. *)
Definition bound_method (items : list pyval) (final : option exn) : pyval :=
  VObj (py "method") true (py "<bound method>") [] (Some (items, final)).

(** A mapping of attribute declarations, as the schema library's attribute
    groups are: false when empty, [values()] in declaration order. *)
Definition attribute_group (declared : list pyval) : pyval :=
  VObj (py "XsdAttributeGroup")
       (match declared with [] => false | _ :: _ => true end)
       (py "XsdAttributeGroup")
       [("values"%string, bound_method declared None)] None.

Definition builtin_type (qname : string) : pyval :=
  VObj (py "XsdAtomicBuiltin") true (py qname)
       [("qualified_name"%string, VStr (py qname))] None.

Definition attribute_decl (name : string) (ty : pyval) : pyval :=
  VObj (py "XsdAttribute") true (py name)
       [("name"%string, VStr (py name)); ("type"%string, ty);
        ("use"%string, VStr (py "required")); ("default"%string, VNone)] None.

(** A model group: false when it has no particle; [iter_elements()] yields
    [elements] and then raises [final], if any. *)
Definition model_group (particles : bool) (elements : list pyval)
    (final : option exn) : pyval :=
  VObj (py "XsdGroup") particles (py "XsdGroup")
       [("iter_elements"%string, bound_method elements final)] None.

(** A content that cannot enumerate elements. *)
Definition simple_content : pyval :=
  VObj (py "XsdGroup") true (py "XsdGroup") [] None.

Definition complex_type (qname : string) (attrs content : pyval) : pyval :=
  VObj (py "XsdComplexType") true (py qname)
       [("qualified_name"%string, VStr (py qname));
        ("name"%string, VStr (py qname));
        ("content"%string, content);
        ("attributes"%string, attrs)] None.

(** An element object without occurrence, nillable and default fields. *)
Definition bare_element (name : string) (ty : pyval) : pyval :=
  VObj (py "Element") true (py name)
       [("qualified_name"%string, VNone); ("name"%string, VStr (py name));
        ("type"%string, ty)] None.

(** A type object with a given [content]. *)
Definition with_content (cls : pystr) (truth : bool) (text : pystr)
    (attrs : list (string * pyval)) (call : option (list pyval * option exn))
    (content : pyval) : pyval :=
  VObj cls truth text (("content"%string, content) :: attrs) call.

Definition twice_lines : list pystr := readlines twice_catalog.

(** Two attribute declarations, the second without a declared type. *)
Definition two_attributes : list pyval :=
  [attribute_decl "id" (builtin_type "xs:ID");
   attribute_decl "lang" VNone].

(** The error of a model group that is nested too deep. *)
Definition depth_error : exn := OtherError (py "XMLSchemaModelDepthError").

(** A type whose content yields one element and then raises. *)
Definition failing_type : pyval :=
  complex_type "t" (attribute_group [])
    (model_group true [bare_element "a" VNone] (Some depth_error)).

(** A type whose content is enumerated and has no element. *)
Definition empty_group_type : pyval :=
  with_content (py "XsdComplexType") true (py "t")
    [("attributes"%string, attribute_group [])] None
    (model_group true [] None).

(** ** Notions used to state further properties *)

(** A string of whitespace only. *)
Definition all_space (w : pystr) : bool := forallb is_space w.

(** The number of occurrences of a character. *)
Fixpoint count_char (c : codepoint) (s : pystr) : nat :=
  match s with
  | [] => 0%nat
  | c' :: s' => if c' =? c then S (count_char c s') else count_char c s'
  end.

(** A line on which the loop body does nothing. *)
Definition is_skip (raw : pystr) : bool :=
  match read_line raw with
  | Skip => true
  | _ => false
  end.

(** The keys the URI lines assign, in the order of the lines. *)
Fixpoint declared_urns (lines : list pystr) : list pystr :=
  match lines with
  | [] => []
  | line :: lines' =>
      match read_line line with
      | AddUri urn _ => urn :: declared_urns lines'
      | _ => declared_urns lines'
      end
  end.

(** A [resolve] that always raises. *)
Definition resolve_fails (p : PosixPath) : result PosixPath :=
  Raise RuntimeError.

(** A catalog without URI lines. *)
Definition no_uri_catalog : pystr :=
  py "-- nothing mapped" ++ [LF]
  ++ py "BASE " ++ quoted (py "schemas/") ++ [LF]
  ++ py "PUBLIC " ++ quoted (py "-//X//DTD") ++ py " " ++ quoted (py "x.dtd").

(** A catalog whose second URI line names a file with a NUL character. *)
Definition nul_catalog : pystr :=
  py "URI " ++ quoted (py "urn:a") ++ py " " ++ quoted (py "a.xsd") ++ [LF]
  ++ py "URI " ++ quoted (py "urn:b") ++ py " "
  ++ quoted (py "b" ++ [0] ++ py ".xsd") ++ [LF]
  ++ py "URI " ++ quoted (py "urn:c") ++ py " " ++ quoted (py "c.xsd") ++ [LF].

(** An element declaration with a declared type and occurrence bounds. *)
Definition element_decl (name : string) (ty : pyval) (lo hi : pyval) : pyval :=
  VObj (py "XsdElement") true (py name)
       [("qualified_name"%string, VStr (py name));
        ("name"%string, VStr (py name)); ("type"%string, ty);
        ("min_occurs"%string, lo); ("max_occurs"%string, hi)] None.

(** A declaration that has its names and no [type] attribute. *)
Definition untyped_decl (name : string) : pyval :=
  VObj (py "Broken") true (py name)
       [("qualified_name"%string, VStr (py name));
        ("name"%string, VStr (py name))] None.

Definition two_elements : list pyval :=
  [element_decl "a" (builtin_type "xs:int") (VInt 0) VNone;
   bare_element "b" VNone].

(** A type one of whose attribute declarations has no [type] attribute. *)
Definition bad_attribute_type : pyval :=
  complex_type "t"
    (attribute_group [attribute_decl "id" (builtin_type "xs:ID");
                      untyped_decl "x"])
    simple_content.

(** An object with a local name only. *)
Definition local_name_only (name : string) : pyval :=
  VObj (py "XsdElement") true (py name)
       [("name"%string, VStr (py name)); ("type"%string, VNone)] None.

(** A simple type restricting [base]. *)
Definition simple_type (qname : string) (base : pyval) : pyval :=
  VObj (py "XsdAtomicRestriction") true (py qname)
       [("qualified_name"%string, VStr (py qname));
        ("name"%string, VStr (py qname));
        ("base_type"%string, base)] None.

(** * Properties *)

(** ** Strings *)

Lemma startswith_app (p s : pystr) : startswith (p ++ s) p = true.
Proof.
  induction p as [|c p IH]; simpl; [done|].
  by rewrite N.eqb_refl, IH.
Qed.

Lemma str_split_no_sep (sep : codepoint) (s : pystr) :
  sep ∉ s → str_split sep s = [s].
Proof.
  induction s as [|c s IH]; intros Hs; simpl; [done|].
  apply not_elem_of_cons in Hs as [Hc Hs].
  destruct (N.eqb_spec c sep) as [->|_]; [done|].
  by rewrite IH.
Qed.

Lemma str_split_app (sep : codepoint) (a b : pystr) :
  sep ∉ a → str_split sep (a ++ sep :: b) = a :: str_split sep b.
Proof.
  induction a as [|c a IH]; intros Ha; simpl.
  - by rewrite N.eqb_refl.
  - apply not_elem_of_cons in Ha as [Hc Ha].
    destruct (N.eqb_spec c sep) as [->|_]; [done|].
    by rewrite IH.
Qed.

Lemma str_split_nonempty (sep : codepoint) (s : pystr) : str_split sep s ≠ [].
Proof.
  destruct s as [|c s]; simpl; [done|].
  destruct (c =? sep); [done|]. by destruct (str_split sep s).
Qed.

Lemma pystr_eqb_eq (a b : pystr) : pystr_eqb a b = true ↔ a = b.
Proof. unfold pystr_eqb. apply bool_decide_eq_true. Qed.

Lemma pystr_eqb_refl (a : pystr) : pystr_eqb a a = true.
Proof. by apply pystr_eqb_eq. Qed.

Lemma pystr_eqb_ne (a b : pystr) : a ≠ b → pystr_eqb a b = false.
Proof. unfold pystr_eqb. apply bool_decide_eq_false. Qed.

Lemma not_elem_of_decide (c : codepoint) (s : pystr) :
  bool_decide (c ∈ s) = false → c ∉ s.
Proof. apply bool_decide_eq_false. Qed.

(** ** The dictionary *)

Lemma dict_get_set_eq (d : dict) (k v : pystr) :
  dict_get (dict_set d k v) k = Some v.
Proof.
  induction d as [|[k' v'] d IH]; simpl.
  - by rewrite pystr_eqb_refl.
  - destruct (pystr_eqb k' k) eqn:E; simpl; by rewrite E.
Qed.

Lemma dict_get_set_ne (d : dict) (k k' v : pystr) :
  k ≠ k' → dict_get (dict_set d k v) k' = dict_get d k'.
Proof.
  intros Hne. induction d as [|[k0 v0] d IH]; simpl.
  - by rewrite pystr_eqb_ne.
  - destruct (pystr_eqb k0 k) eqn:E; simpl; [|by rewrite IH].
    apply pystr_eqb_eq in E as ->. by rewrite pystr_eqb_ne.
Qed.

Lemma dict_keys_set_in (d : dict) (k v : pystr) :
  k ∈ dict_keys d → dict_keys (dict_set d k v) = dict_keys d.
Proof.
  unfold dict_keys. induction d as [|[k0 v0] d IH]; simpl; intros Hin.
  - by apply elem_of_nil in Hin.
  - destruct (pystr_eqb k0 k) eqn:E; simpl; [done|].
    f_equal. apply IH. apply elem_of_cons in Hin as [->|Hin]; [|done].
    by rewrite pystr_eqb_refl in E.
Qed.

Lemma dict_keys_set_notin (d : dict) (k v : pystr) :
  k ∉ dict_keys d → dict_keys (dict_set d k v) = dict_keys d ++ [k].
Proof.
  unfold dict_keys. induction d as [|[k0 v0] d IH]; simpl; intros Hin; [done|].
  apply not_elem_of_cons in Hin as [Hne Hin].
  rewrite pystr_eqb_ne by done. simpl. f_equal. by apply IH.
Qed.

(** Assignment keeps the keys of the dictionary pairwise distinct. *)
Lemma dict_set_NoDup (d : dict) (k v : pystr) :
  NoDup (dict_keys d) → NoDup (dict_keys (dict_set d k v)).
Proof.
  intros Hd. destruct (decide (k ∈ dict_keys d)) as [Hin|Hin].
  - by rewrite dict_keys_set_in.
  - rewrite dict_keys_set_notin by done.
    apply NoDup_app. split; [done|]. split.
    + intros x Hx Hk. apply list_elem_of_singleton in Hk as ->. done.
    + apply NoDup_singleton.
Qed.

Lemma dict_get_None_keys (d : dict) (k : pystr) :
  dict_get d k = None ↔ k ∉ dict_keys d.
Proof.
  unfold dict_keys. induction d as [|[k0 v0] d IH]; simpl.
  - split; [intros _; apply not_elem_of_nil|done].
  - destruct (pystr_eqb k0 k) eqn:E.
    + apply pystr_eqb_eq in E as ->. split; [done|].
      intros H. exfalso. apply H. left.
    + rewrite IH. rewrite not_elem_of_cons. split; [|tauto].
      intros H. split; [|done]. intros ->. by rewrite pystr_eqb_refl in E.
Qed.

(** ** Paths *)

Lemma joinpath_empty (p : PosixPath) : p </> [] = p.
Proof. destruct p as [r t]. unfold joinpath. simpl. by rewrite app_nil_r. Qed.

Lemma path_str_nonempty (p : PosixPath) : path_str p ≠ [].
Proof. unfold path_str. by destruct (root p ++ str_join [SLASH] (tail p)). Qed.

Lemma full_path_base (dir : PosixPath) (base local_path : pystr) :
  full_path dir (Some base) local_path = dir </> base </> local_path.
Proof.
  unfold full_path. destruct base as [|c base]; simpl; [|done].
  by rewrite joinpath_empty.
Qed.

(** ** Reading one line *)

Lemma read_line_base_stripped (raw X : pystr) :
  strip raw = py "BASE " ++ quoted (py "../../" ++ X) →
  DQUOTE ∉ X →
  read_line raw = SetBase X.
Proof.
  intros Hraw HX. unfold read_line. rewrite Hraw.
  assert (Hsplit : str_split DQUOTE (py "BASE " ++ quoted (py "../../" ++ X))
                   = [py "BASE "; py "../../" ++ X; []]).
  { unfold quoted. rewrite str_split_app.
    - rewrite str_split_app; [done|].
      rewrite elem_of_app. intros [H|H]; [|done].
      revert H. apply not_elem_of_decide. by vm_compute.
    - apply not_elem_of_decide. by vm_compute. }
  rewrite Hsplit. rewrite startswith_app.
  change (py "BASE " ++ quoted (py "../../" ++ X))
    with (py "BASE" ++ (32 :: quoted (py "../../" ++ X))).
  rewrite startswith_app. done.
Qed.

Lemma changes_base_false (raw : pystr) :
  changes_base raw = false → ∀ b, read_line raw ≠ SetBase b.
Proof. unfold changes_base. intros H b Hb. by rewrite Hb in H. Qed.

Lemma declares_false (urn raw : pystr) :
  declares urn raw = false → ∀ p, read_line raw ≠ AddUri urn p.
Proof.
  unfold declares. intros H p Hp. rewrite Hp in H.
  by rewrite pystr_eqb_refl in H.
Qed.

(** ** The loop *)

Section CatalogFacts.

Variable resolve : PosixPath -> result PosixPath.
Variable dir : PosixPath.

Lemma parse_lines_app (st : parser_state) (l1 l2 : list pystr) :
  parse_lines resolve dir st (l1 ++ l2)
  = st' ← parse_lines resolve dir st l1; parse_lines resolve dir st' l2.
Proof.
  revert st. induction l1 as [|l l1 IH]; intros st; simpl; [done|].
  destruct (process_line resolve dir st l) as [st'|e]; simpl; [apply IH|done].
Qed.

Lemma parse_lines_app_Ok (st st2 : parser_state) (l1 l2 : list pystr) :
  parse_lines resolve dir st (l1 ++ l2) = Ok st2 →
  ∃ st1, parse_lines resolve dir st l1 = Ok st1
         ∧ parse_lines resolve dir st1 l2 = Ok st2.
Proof.
  rewrite parse_lines_app.
  destruct (parse_lines resolve dir st l1) as [st1|e]; simpl; [eauto|done].
Qed.

Lemma parse_lines_cons_Ok (st st2 : parser_state) (l : pystr)
    (ls : list pystr) :
  parse_lines resolve dir st (l :: ls) = Ok st2 →
  ∃ st1, process_line resolve dir st l = Ok st1
         ∧ parse_lines resolve dir st1 ls = Ok st2.
Proof.
  simpl. destruct (process_line resolve dir st l) as [st1|e]; simpl;
    [eauto|done].
Qed.

(** The three effects a line can have. *)
Lemma process_line_cases (st st' : parser_state) (raw : pystr) :
  process_line resolve dir st raw = Ok st' →
  (read_line raw = Skip ∧ st' = st)
  ∨ (∃ b, read_line raw = SetBase b
          ∧ st' = {| urn_map := urn_map st; current_base := Some b |})
  ∨ (∃ urn p q, read_line raw = AddUri urn p
          ∧ resolve (full_path dir (current_base st) p) = Ok q
          ∧ st' = {| urn_map := dict_set (urn_map st) urn (path_str q);
                     current_base := current_base st |}).
Proof.
  unfold process_line. destruct (read_line raw) as [|b|urn p].
  - intros [= <-]. by left.
  - intros [= <-]. right. left. eauto.
  - destruct (resolve _) as [q|e] eqn:Hq; simpl; [|done].
    intros [= <-]. right. right. eauto 10.
Qed.

Lemma process_line_keeps_base (st st' : parser_state) (raw : pystr) :
  changes_base raw = false →
  process_line resolve dir st raw = Ok st' →
  current_base st' = current_base st.
Proof.
  intros Hb H. apply process_line_cases in H
    as [[_ ->]|[(b & Hr & ->)|(urn & p & q & _ & _ & ->)]]; [done| |done].
  by apply changes_base_false with (b := b) in Hb.
Qed.

Lemma process_line_keeps_entry (urn : pystr) (st st' : parser_state)
    (raw : pystr) :
  declares urn raw = false →
  process_line resolve dir st raw = Ok st' →
  dict_get (urn_map st') urn = dict_get (urn_map st) urn.
Proof.
  intros Hd H. apply process_line_cases in H
    as [[_ ->]|[(b & Hr & ->)|(urn' & p & q & Hr & _ & ->)]]; [done|done|].
  simpl. apply dict_get_set_ne. intros ->.
  by apply declares_false with (p := p) in Hd.
Qed.

Lemma process_line_NoDup (st st' : parser_state) (raw : pystr) :
  NoDup (dict_keys (urn_map st)) →
  process_line resolve dir st raw = Ok st' →
  NoDup (dict_keys (urn_map st')).
Proof.
  intros Hd H. apply process_line_cases in H
    as [[_ ->]|[(b & Hr & ->)|(urn' & p & q & Hr & _ & ->)]]; [done|done|].
  simpl. by apply dict_set_NoDup.
Qed.

Lemma parse_lines_keeps_base (st st' : parser_state) (lines : list pystr) :
  Forall (λ l, changes_base l = false) lines →
  parse_lines resolve dir st lines = Ok st' →
  current_base st' = current_base st.
Proof.
  intros Hall. revert st. induction Hall as [|l lines Hl _ IH]; intros st.
  - by intros [= <-].
  - intros (st1 & H1 & H2)%parse_lines_cons_Ok.
    rewrite (IH _ H2). by eapply process_line_keeps_base.
Qed.

Lemma parse_lines_keeps_entry (urn : pystr) (st st' : parser_state)
    (lines : list pystr) :
  Forall (λ l, declares urn l = false) lines →
  parse_lines resolve dir st lines = Ok st' →
  dict_get (urn_map st') urn = dict_get (urn_map st) urn.
Proof.
  intros Hall. revert st. induction Hall as [|l lines Hl _ IH]; intros st.
  - by intros [= <-].
  - intros (st1 & H1 & H2)%parse_lines_cons_Ok.
    rewrite (IH _ H2). by eapply process_line_keeps_entry.
Qed.

Lemma parse_lines_NoDup (st st' : parser_state) (lines : list pystr) :
  NoDup (dict_keys (urn_map st)) →
  parse_lines resolve dir st lines = Ok st' →
  NoDup (dict_keys (urn_map st')).
Proof.
  revert st. induction lines as [|l lines IH]; intros st Hd.
  - by intros [= <-].
  - intros (st1 & H1 & H2)%parse_lines_cons_Ok.
    eapply IH; [|done]. by eapply process_line_NoDup.
Qed.

(** Every stored path is a non-empty string. *)
Lemma parse_lines_values (st st' : parser_state) (lines : list pystr) :
  Forall (λ kv, kv.2 ≠ []) (urn_map st) →
  parse_lines resolve dir st lines = Ok st' →
  Forall (λ kv, kv.2 ≠ []) (urn_map st').
Proof.
  revert st. induction lines as [|l lines IH]; intros st Hd.
  - by intros [= <-].
  - intros (st1 & H1 & H2)%parse_lines_cons_Ok.
    eapply IH; [|done]. apply process_line_cases in H1
      as [[_ ->]|[(b & Hr & ->)|(urn' & p & q & Hr & _ & ->)]]; [done|done|].
    simpl. clear -Hd. induction (urn_map st) as [|[k v] d IH]; simpl.
    + constructor; [apply path_str_nonempty|constructor].
    + inversion Hd; subst. destruct (pystr_eqb k urn').
      * constructor; [apply path_str_nonempty|done].
      * constructor; [done|by apply IH].
Qed.

(** The loop completes when [resolve] returns for every path handed to
    it. *)
Lemma parse_lines_returns (st : parser_state) (lines : list pystr) :
  Forall (λ path, is_ok (resolve path) = true)
    (requested_paths dir (current_base st) lines) →
  ∃ st', parse_lines resolve dir st lines = Ok st'.
Proof.
  revert st. induction lines as [|l lines IH]; intros st; simpl; [eauto|].
  unfold process_line. destruct (read_line l) as [|b|urn p]; simpl.
  - apply IH.
  - intros H. by apply (IH (mkState (urn_map st) (Some b))).
  - intros [Hp H]%Forall_cons.
    destruct (resolve (full_path dir (current_base st) p)) as [q|e];
      [|done].
    simpl. by apply (IH (mkState _ (current_base st))).
Qed.

End CatalogFacts.

Lemma parse_catalog_Ok (read_text : pystr → result pystr)
    (resolve : PosixPath → result PosixPath) (catalog_path text : pystr)
    (m : dict) :
  read_text catalog_path = Ok text →
  parse_catalog read_text resolve catalog_path = Ok m ↔
  ∃ st, parse_lines resolve (catalog_dir_of catalog_path) initial_state
          (readlines text) = Ok st ∧ m = urn_map st.
Proof.
  intros Hread. unfold parse_catalog. rewrite Hread. simpl.
  destruct (parse_lines resolve _ initial_state (readlines text)) as [st|e];
    simpl.
  - split; [intros [= <-]; eauto|]. by intros (st' & [= <-] & ->).
  - split; [done|]. by intros (st' & [=] & _).
Qed.

(** ** The catalog parser *)

(** C1, as the code has it: the catalog of the example, read from
    [/cat/catalog.xml], gives the single entry of [urn:example:foo], and its
    path is the canonical form of [/cat/schemas/ignored]: the local path is
    the second quoted field of the URI line (field 3 of the split on double
    quotes), and the third quoted field is not read. *)
Theorem example_catalog_entry (read_text : pystr → result pystr)
    (resolve : PosixPath → result PosixPath) (q : PosixPath) :
  read_text example_path = Ok example_catalog →
  resolve (mkPath [SLASH] [py "cat"; py "schemas"; py "ignored"]) = Ok q →
  parse_catalog read_text resolve example_path
  = Ok [(py "urn:example:foo", path_str q)].
Proof.
  intros Hread Hres.
  assert (Hlines : ∃ l1 l2, readlines example_catalog = [l1; l2]
            ∧ read_line l1 = SetBase (py "schemas/")
            ∧ read_line l2 = AddUri (py "urn:example:foo") (py "ignored"))
    by (do 2 eexists; by vm_compute).
  destruct Hlines as (l1 & l2 & Hl & H1 & H2).
  apply (parse_catalog_Ok _ _ _ _ _ Hread). rewrite Hl.
  cbn [parse_lines]. unfold process_line. rewrite H1.
  cbn [mbind result_bind current_base]. rewrite H2.
  change (full_path (catalog_dir_of example_path) (Some (py "schemas/"))
            (py "ignored"))
    with (mkPath [SLASH] [py "cat"; py "schemas"; py "ignored"]).
  rewrite Hres. eexists. split; reflexivity.
Qed.

Lemma example_catalog_entry_witness :
  parse_catalog (single_file example_path example_catalog)
    (resolve_nolinks []) example_path
  = Ok [(py "urn:example:foo",
         path_str (mkPath [SLASH] [py "cat"; py "schemas"; py "ignored"]))].
Proof.
  apply (example_catalog_entry (single_file example_path example_catalog)
           (resolve_nolinks [])); reflexivity.
Defined.

(** C1, as stated, fails on a file system without symbolic links: the entry
    of [urn:example:foo] is not [/cat/schemas/foo.xsd]. *)
Lemma example_catalog_third_field_unused :
  ¬ ∃ m, parse_catalog (single_file example_path example_catalog)
           (resolve_nolinks []) example_path = Ok m
         ∧ dict_get m (py "urn:example:foo") = Some (py "/cat/schemas/foo.xsd").
Proof.
  intros (m & Hm & Hget). vm_compute in Hm. injection Hm as <-.
  vm_compute in Hget. discriminate.
Qed.

(** With the URI line in its two-field form the example gives the path the
    specification names. *)
Lemma example_catalog_two_fields_entry :
  parse_catalog (single_file example_path example_catalog_two_fields)
    (resolve_nolinks []) example_path
  = Ok [(py "urn:example:foo", py "/cat/schemas/foo.xsd")].
Proof. by vm_compute. Qed.

(** C2: in a catalog with a line [BASE "../../X"], then lines that leave the
    base as it is, then a URI line with the fields [(urn, p)], and no later
    line for [urn], the parser returns when [resolve] returns for the paths
    handed to it, and the path stored for [urn] is the canonical form of
    [catalog_dir / X / p]: the prefix is removed once, whatever [X] starts
    with, and is not followed as a path to the parent. *)
Theorem base_prefix_stripped_once (read_text : pystr → result pystr)
    (resolve : PosixPath → result PosixPath) (catalog_path text : pystr)
    (pre mid post : list pystr) (b u X urn p : pystr) :
  read_text catalog_path = Ok text →
  readlines text = pre ++ b :: mid ++ u :: post →
  strip b = py "BASE " ++ quoted (py "../../" ++ X) →
  DQUOTE ∉ X →
  Forall (λ l, changes_base l = false) mid →
  read_line u = AddUri urn p →
  Forall (λ l, declares urn l = false) post →
  Forall (λ path, is_ok (resolve path) = true)
    (requested_paths (catalog_dir_of catalog_path) None (readlines text)) →
  ∃ m q, parse_catalog read_text resolve catalog_path = Ok m
         ∧ resolve (catalog_dir_of catalog_path </> X </> p) = Ok q
         ∧ dict_get m urn = Some (path_str q).
Proof.
  intros Hread Hlines Hb HX Hmid Hu Hpost Hres.
  destruct (parse_lines_returns resolve (catalog_dir_of catalog_path)
              initial_state (readlines text) Hres) as [st Hst].
  exists (urn_map st).
  assert (Hm : parse_catalog read_text resolve catalog_path
               = Ok (urn_map st))
    by (apply (parse_catalog_Ok _ _ _ _ _ Hread); eauto).
  rewrite Hlines in Hst.
  apply parse_lines_app_Ok in Hst as (st1 & _ & Hst).
  apply parse_lines_cons_Ok in Hst as (st2 & H2 & Hst).
  apply parse_lines_app_Ok in Hst as (st3 & H3 & Hst).
  apply parse_lines_cons_Ok in Hst as (st4 & H4 & Hst).
  apply (parse_lines_keeps_entry _ _ urn) in Hst; [|done].
  apply parse_lines_keeps_base in H3; [|done].
  unfold process_line in H2.
  rewrite (read_line_base_stripped _ _ Hb HX) in H2.
  injection H2 as <-. simpl in H3.
  unfold process_line in H4. rewrite Hu, H3, full_path_base in H4.
  destruct (resolve _) as [q|e]; simpl in H4; [|done].
  injection H4 as <-. exists q. split; [done|]. split; [done|].
  rewrite Hst. simpl. apply dict_get_set_eq.
Qed.

Lemma base_prefix_stripped_once_witness :
  ∃ m q, parse_catalog (single_file example_path twice_catalog)
           (resolve_nolinks []) example_path = Ok m
         ∧ resolve_nolinks []
             (catalog_dir_of example_path </> py "v2/" </> py "new.xsd")
           = Ok q
         ∧ dict_get m (py "urn:x") = Some (path_str q).
Proof.
  apply (base_prefix_stripped_once (single_file example_path twice_catalog)
           (resolve_nolinks []) example_path twice_catalog
           (take 2 twice_lines) (take 1 (drop 3 twice_lines))
           (drop 5 twice_lines)
           (py "BASE " ++ quoted (py "../../v2/") ++ [LF])
           (py "URI " ++ quoted (py "urn:x") ++ py " "
            ++ quoted (py "new.xsd") ++ [LF])
           (py "v2/") (py "urn:x") (py "new.xsd")).
  - reflexivity.
  - reflexivity.
  - reflexivity.
  - apply not_elem_of_decide. reflexivity.
  - repeat constructor.
  - reflexivity.
  - repeat constructor.
  - repeat constructor.
Defined.

(** Only one prefix is removed: after [BASE "../../../../x/"] the base is
    [../../x/], and its two remaining steps to the parent are followed. *)
Lemma base_prefix_removed_once_example :
  read_line (py "BASE " ++ quoted (py "../../../../x/") ++ [LF])
  = SetBase (py "../../x/")
  ∧ path_str <$> resolve_nolinks []
      (parse_path (py "/a/b/c") </> py "../../x/" </> py "s.xsd")
    = Ok (py "/a/x/s.xsd").
Proof. by vm_compute. Qed.

(** C9: after any number of lines the keys of [urn_map] are pairwise
    distinct; an assignment to a key already present replaces its value and
    adds no key; and the parser returns when [resolve] returns for the paths
    handed to it, with, for every urn, the path computed for the last URI
    line that names it, under the base in force at that line. *)
Theorem urn_map_unique_last_wins (read_text : pystr → result pystr)
    (resolve : PosixPath → result PosixPath) (catalog_path text : pystr) :
  read_text catalog_path = Ok text →
  Forall (λ path, is_ok (resolve path) = true)
    (requested_paths (catalog_dir_of catalog_path) None (readlines text)) →
  (∀ n st, parse_lines resolve (catalog_dir_of catalog_path) initial_state
             (take n (readlines text)) = Ok st →
           NoDup (dict_keys (urn_map st)))
  ∧ (∀ d k v, k ∈ dict_keys d →
              dict_keys (dict_set d k v) = dict_keys d
              ∧ dict_get (dict_set d k v) k = Some v)
  ∧ ∃ m, parse_catalog read_text resolve catalog_path = Ok m
      ∧ NoDup (dict_keys m)
      ∧ ∀ pre l post urn p,
          readlines text = pre ++ l :: post →
          read_line l = AddUri urn p →
          Forall (λ l', declares urn l' = false) post →
          ∃ st q,
            parse_lines resolve (catalog_dir_of catalog_path) initial_state
              pre = Ok st
            ∧ resolve (full_path (catalog_dir_of catalog_path)
                         (current_base st) p) = Ok q
            ∧ dict_get m urn = Some (path_str q).
Proof.
  intros Hread Hres. split; [|split].
  - intros n st Hst. eapply parse_lines_NoDup; [|done]. constructor.
  - intros d k v Hk. split; [by apply dict_keys_set_in|].
    apply dict_get_set_eq.
  - destruct (parse_lines_returns resolve (catalog_dir_of catalog_path)
                initial_state (readlines text) Hres) as [st Hst].
    exists (urn_map st). split.
    { apply (parse_catalog_Ok _ _ _ _ _ Hread). eauto. }
    split.
    { eapply parse_lines_NoDup; [|done]. constructor. }
    intros pre l post urn p Hlines Hl Hpost.
    rewrite Hlines in Hst.
    apply parse_lines_app_Ok in Hst as (st1 & H1 & Hst).
    apply parse_lines_cons_Ok in Hst as (st2 & H2 & Hst).
    apply (parse_lines_keeps_entry _ _ urn) in Hst; [|done].
    unfold process_line in H2. rewrite Hl in H2.
    destruct (resolve _) as [q|e] eqn:Hq; simpl in H2; [|done].
    injection H2 as <-. exists st1, q. split; [done|]. split; [done|].
    rewrite Hst. simpl. apply dict_get_set_eq.
Qed.

Lemma urn_map_unique_last_wins_witness :
  ∃ m, parse_catalog (single_file example_path twice_catalog)
         (resolve_nolinks []) example_path = Ok m
       ∧ NoDup (dict_keys m)
       ∧ dict_get m (py "urn:x") = Some (py "/cat/v2/new.xsd").
Proof.
  destruct (urn_map_unique_last_wins
              (single_file example_path twice_catalog)
              (resolve_nolinks []) example_path twice_catalog eq_refl)
    as (_ & _ & m & Hm & Hkeys & Hlast).
  - repeat constructor.
  - exists m. split; [done|]. split; [done|].
    destruct (Hlast (take 4 twice_lines)
                (py "URI " ++ quoted (py "urn:x") ++ py " "
                 ++ quoted (py "new.xsd") ++ [LF])
                (drop 5 twice_lines) (py "urn:x") (py "new.xsd"))
      as (st & q & Hst & Hq & Hget).
    + reflexivity.
    + reflexivity.
    + repeat constructor.
    + injection Hst as <-. injection Hq as <-. exact Hget.
Defined.

(** ** The resolver *)

Lemma get_truthy_Some (d : dict) (k v : pystr) :
  dict_get d k = Some v → v ≠ [] → get_truthy (dict_get d k) = Some v.
Proof. intros -> Hv. by destruct v. Qed.

(** The result of [uri_mapper] when the decoded form has a non-empty entry. *)
Lemma uri_mapper_decoded (m : dict) (u v : pystr) :
  dict_get m (unquote u) = Some v → v ≠ [] →
  uri_mapper m (Some u) = ([unquote u], Some v).
Proof.
  intros Hget Hv. unfold uri_mapper.
  by rewrite (get_truthy_Some _ _ _ Hget Hv).
Qed.

(** The paths a parsed catalog stores are never empty. *)
Lemma parse_catalog_values (read_text : pystr → result pystr)
    (resolve : PosixPath → result PosixPath) (catalog_path : pystr)
    (m : dict) (k v : pystr) :
  parse_catalog read_text resolve catalog_path = Ok m →
  dict_get m k = Some v → v ≠ [].
Proof.
  unfold parse_catalog.
  destruct (read_text catalog_path) as [text|e]; simpl; [|done].
  destruct (parse_lines _ _ _ _) as [st|e] eqn:Hst; simpl; [|done].
  intros [= <-]. apply parse_lines_values in Hst; [|constructor].
  induction Hst as [|[k' v'] d Hv _ IH]; simpl; [done|].
  destruct (pystr_eqb k' k); [|done]. by intros [= <-].
Qed.

(** C3, as the code has it: when the percent-decoded form [d] of [u] is a
    key of the map of a parsed catalog, and decoding [d] once more either
    changes nothing or gives no key, [uri_mapper] returns the path of [d] for
    [u] and for [d] alike; for [u] the decoded form is the only key looked
    up, and for either input the decoded form is looked up first. *)
Theorem encoded_and_decoded_resolve_alike (read_text : pystr → result pystr)
    (resolve : PosixPath → result PosixPath) (catalog_path : pystr)
    (m : dict) (u v : pystr) :
  parse_catalog read_text resolve catalog_path = Ok m →
  dict_get m (unquote u) = Some v →
  unquote (unquote u) = unquote u ∨ dict_get m (unquote (unquote u)) = None →
  uri_mapper m (Some u) = ([unquote u], Some v)
  ∧ (uri_mapper m (Some (unquote u))).2 = Some v
  ∧ head (uri_mapper m (Some (unquote u))).1 = Some (unquote (unquote u)).
Proof.
  intros Hm Hget Hstable.
  pose proof (parse_catalog_values _ _ _ _ _ _ Hm Hget) as Hv.
  split; [by apply uri_mapper_decoded|].
  destruct Hstable as [Heq|Hnone].
  - rewrite (uri_mapper_decoded m (unquote u) v); [done| |done].
    by rewrite Heq.
  - unfold uri_mapper. rewrite Hnone. simpl.
    by rewrite (get_truthy_Some _ _ _ Hget Hv).
Qed.

Lemma encoded_and_decoded_resolve_alike_witness :
  uri_mapper [(py "urn:example:foo", py "/cat/schemas/foo.xsd")]
    (Some (py "urn%3Aexample%3Afoo"))
  = ([unquote (py "urn%3Aexample%3Afoo")], Some (py "/cat/schemas/foo.xsd"))
  ∧ (uri_mapper [(py "urn:example:foo", py "/cat/schemas/foo.xsd")]
       (Some (unquote (py "urn%3Aexample%3Afoo")))).2
    = Some (py "/cat/schemas/foo.xsd")
  ∧ head (uri_mapper [(py "urn:example:foo", py "/cat/schemas/foo.xsd")]
            (Some (unquote (py "urn%3Aexample%3Afoo")))).1
    = Some (unquote (unquote (py "urn%3Aexample%3Afoo"))).
Proof.
  apply (encoded_and_decoded_resolve_alike
           (single_file example_path example_catalog_two_fields)
           (resolve_nolinks []) example_path).
  - reflexivity.
  - reflexivity.
  - left. reflexivity.
Defined.

(** C3, as stated, fails on this catalog, whose only key is [u]: the one
    line [URI "a%41" "p.xsd"] gives a map with the key [a%41],
    for which the mapper returns the stored path, while for the decoded form
    [aA] it returns [aA]. *)
Lemma encoded_key_not_found_from_decoded :
  ∃ m, parse_catalog (single_file example_path percent_catalog)
         (resolve_nolinks []) example_path = Ok m
       ∧ dict_get m (py "a%41") = Some (py "/cat/p.xsd")
       ∧ unquote (py "a%41") = py "aA"
       ∧ (uri_mapper m (Some (py "a%41"))).2 = Some (py "/cat/p.xsd")
       ∧ (uri_mapper m (Some (unquote (py "a%41")))).2 = Some (py "aA")
       ∧ (uri_mapper m (Some (py "a%41"))).2
         ≠ (uri_mapper m (Some (unquote (py "a%41")))).2.
Proof.
  eexists. split; [by vm_compute|]. by vm_compute.
Qed.

(** The two forms can also resolve to different paths, when the decoded form
    is a key and decodes further to another key. *)
Lemma decoded_twice_differs :
  let m := [(py "%41", py "/cat/x.xsd"); (py "A", py "/cat/y.xsd")] in
  (uri_mapper m (Some (py "%2541"))).2 = Some (py "/cat/x.xsd")
  ∧ (uri_mapper m (Some (unquote (py "%2541")))).2 = Some (py "/cat/y.xsd").
Proof. by vm_compute. Qed.

(** C4: for [None] the mapper returns [None] and looks up no key, whatever
    the map. *)
Theorem uri_mapper_none (m : dict) : uri_mapper m None = ([], None).
Proof. reflexivity. Qed.

(** C5: when neither [u] nor its decoded form is a key, the mapper returns
    [u] itself, not its decoded form; it is a total function, so no input
    makes it raise. *)
Theorem uri_mapper_unmapped (m : dict) (u : pystr) :
  dict_get m u = None →
  dict_get m (unquote u) = None →
  (uri_mapper m (Some u)).2 = Some u.
Proof. intros Hu Hd. unfold uri_mapper. by rewrite Hd, Hu. Qed.

Lemma uri_mapper_unmapped_witness :
  (uri_mapper [(py "urn:example:foo", py "/cat/schemas/foo.xsd")]
     (Some (py "urn%3Aunknown"))).2
  = Some (py "urn%3Aunknown").
Proof.
  apply (uri_mapper_unmapped
           [(py "urn:example:foo", py "/cat/schemas/foo.xsd")]
           (py "urn%3Aunknown")); reflexivity.
Defined.

(** ** The extraction helpers *)

Lemma mapM_Ok_Forall2 {B} (f : pyval → result B) (items : list pyval)
    (entries : list B) :
  mapM f items = Ok entries ↔ Forall2 (λ a e, f a = Ok e) items entries.
Proof.
  revert entries. induction items as [|a items IH]; intros entries; simpl.
  - split.
    + intros [= <-]. constructor.
    + intros H. by inversion H.
  - split.
    + destruct (f a) as [e|x] eqn:Ha; simpl; [|done].
      destruct (mapM f items) as [es|x] eqn:Hes; simpl; [|done].
      intros [= <-]. constructor; [done|]. by apply IH.
    + intros H. inversion H as [|? e ? es Ha Hes]; subst.
      rewrite Ha. simpl. apply IH in Hes. by rewrite Hes.
Qed.

Lemma mapM_total {B} (f : pyval → result B) (items : list pyval) :
  Forall (λ a, ∃ e, f a = Ok e) items → ∃ entries, mapM f items = Ok entries.
Proof.
  induction 1 as [|a items [e Ha] _ [es IH]]; simpl; [by eexists|].
  rewrite Ha, IH. simpl. by eexists.
Qed.

Lemma hasattr_getattr (v : pyval) (name : string) :
  hasattr v name = true → ∃ x, getattr v name = Ok x.
Proof.
  unfold hasattr, getattr. destruct (attr_of v name); [eauto|done].
Qed.

Lemma hasattr_false_attr_or (v : pyval) (name : string) (d : pyval) :
  hasattr v name = false → attr_or v name d = d.
Proof. unfold hasattr, attr_or. by destruct (attr_of v name). Qed.

(** An attribute declaration with [name] and [type] has an entry. *)
Lemma attribute_info_total (attr : pyval) :
  hasattr attr "name" = true → hasattr attr "type" = true →
  ∃ e, attribute_info attr = Ok e.
Proof.
  intros [n Hn]%hasattr_getattr [ty Hty]%hasattr_getattr.
  unfold attribute_info. rewrite Hn, Hty. simpl. by eexists.
Qed.

(** [extract_type_info] returns exactly when the attribute collection is
    read without an exception, and the three conditional keys are as the
    three parts compute them. *)
Lemma extract_type_info_Ok (type_obj : pyval) (info : TypeInfo) :
  extract_type_info type_obj = Ok info →
  type_attributes type_obj = Ok (attributes info)
  ∧ child_elements info = type_child_elements type_obj
  ∧ content_model info = type_content_model type_obj.
Proof.
  unfold extract_type_info.
  destruct (type_attributes type_obj) as [attrs|e]; simpl; [|done].
  by intros [= <-].
Qed.

Lemma extract_type_info_Raise (type_obj : pyval) (e : exn) :
  extract_type_info type_obj = Raise e → type_attributes type_obj = Raise e.
Proof.
  unfold extract_type_info.
  destruct (type_attributes type_obj) as [attrs|e']; simpl; [done|].
  by intros [= <-].
Qed.

Lemma extract_type_info_returns (type_obj : pyval)
    (attrs : option (list AttributeInfo)) :
  type_attributes type_obj = Ok attrs →
  ∃ info, extract_type_info type_obj = Ok info
          ∧ attributes info = attrs
          ∧ child_elements info = type_child_elements type_obj.
Proof.
  intros H. unfold extract_type_info. rewrite H. simpl. by eexists.
Qed.

Lemma extract_complex_type_info_Ok (type_obj : pyval) (info : TypeInfo) :
  extract_complex_type_info type_obj = Ok info →
  child_elements info = type_child_elements type_obj.
Proof.
  unfold extract_complex_type_info.
  destruct (qualified_or_name type_obj) as [name|e]; simpl; [|done].
  destruct (type_attributes type_obj) as [attrs|e]; simpl; [|done].
  by intros [= <-].
Qed.

(** The three ways in which [child_elements] is left out for a type with a
    content: no [iter_elements], an exception in the [try] block, an empty
    list of elements. *)
Lemma child_elements_unsupported (type_obj content : pyval) :
  attr_of type_obj "content" = Some content →
  hasattr content "iter_elements" = false →
  type_child_elements type_obj = None.
Proof.
  intros Hc Hno. unfold type_child_elements, attr_truthy. rewrite Hc.
  destruct (truthy content); [|done]. by rewrite Hno.
Qed.

Lemma child_elements_block_raises (type_obj content : pyval) (e : exn) :
  attr_of type_obj "content" = Some content →
  iter_child_elements content = Raise e →
  type_child_elements type_obj = None.
Proof.
  intros Hc He. unfold type_child_elements, attr_truthy. rewrite Hc.
  destruct (truthy content); [|done].
  destruct (hasattr content "iter_elements"); [|done]. by rewrite He.
Qed.

Lemma child_elements_empty (type_obj content : pyval) :
  attr_of type_obj "content" = Some content →
  list_iter_elements content = Ok [] →
  type_child_elements type_obj = None.
Proof.
  intros Hc He. unfold type_child_elements, attr_truthy. rewrite Hc.
  destruct (truthy content); [|done].
  destruct (hasattr content "iter_elements"); [|done].
  unfold iter_child_elements. by rewrite He.
Qed.

Lemma child_elements_not_enumerated (type_obj content : pyval) :
  attr_of type_obj "content" = Some content →
  hasattr content "iter_elements" = false
  ∨ (∃ e, list_iter_elements content = Raise e) →
  type_child_elements type_obj = None.
Proof.
  intros Hc [Hno|[e He]].
  - by eapply child_elements_unsupported.
  - eapply child_elements_block_raises with (e := e); [done|].
    unfold iter_child_elements. by rewrite He.
Qed.

(** C6: in every description that [extract_element_info] returns, each of
    the four optional fields has its default when the element has no such
    field, whatever its other fields are: [min_occurs] is 1 without a
    [min_occurs], [max_occurs] is 1 without a [max_occurs], [nillable] is
    [False] without a [nillable] and [default] is [None] without a
    [default]; so an element without occurrence fields gets the bounds 1 and
    1. The function returns for every element that has its name and its
    type, the type being false or one whose attribute collection is read
    without an exception. *)
Theorem element_occurrence_defaults (element : pyval) :
  (∀ info, extract_element_info element = Ok info →
     (hasattr element "min_occurs" = false → min_occurs info = VInt 1)
     ∧ (hasattr element "max_occurs" = false → max_occurs info = VInt 1)
     ∧ (hasattr element "nillable" = false → nillable info = VBool false)
     ∧ (hasattr element "default" = false → default info = VNone))
  ∧ (∀ name ty,
       qualified_or_name element = Ok name →
       getattr element "type" = Ok ty →
       truthy ty = false ∨ (∃ attrs, type_attributes ty = Ok attrs) →
       ∃ info, extract_element_info element = Ok info).
Proof.
  split.
  - intros info. unfold extract_element_info.
    destruct (qualified_or_name element) as [name|e]; simpl; [|done].
    destruct (getattr element "type") as [ty|e]; simpl; [|done].
    destruct (if truthy ty then _ else _) as [ti|e]; simpl; [|done].
    intros [= <-]. simpl.
    repeat split; intros H; by rewrite hasattr_false_attr_or.
  - intros name ty Hname Hty Htype. unfold extract_element_info.
    rewrite Hname, Hty. simpl. destruct (truthy ty) eqn:Ht.
    + destruct Htype as [|[attrs Hattrs]]; [done|].
      destruct (extract_type_info_returns _ _ Hattrs) as (ti & -> & _).
      simpl. by eexists.
    + simpl. by eexists.
Qed.

Lemma element_occurrence_defaults_witness :
  (∃ info, extract_element_info (bare_element "item" (builtin_type "xs:int"))
           = Ok info
           ∧ min_occurs info = VInt 1 ∧ max_occurs info = VInt 1
           ∧ nillable info = VBool false ∧ default info = VNone)
  ∧ (∃ info, extract_element_info
               (element_decl "item" (builtin_type "xs:int") (VInt 0) VNone)
             = Ok info
             ∧ min_occurs info = VInt 0 ∧ max_occurs info = VNone
             ∧ nillable info = VBool false ∧ default info = VNone).
Proof.
  split.
  - destruct (element_occurrence_defaults
                (bare_element "item" (builtin_type "xs:int")))
      as [Hdef Hret].
    destruct (Hret (VStr (py "item")) (builtin_type "xs:int") eq_refl eq_refl)
      as [info Hinfo].
    + right. by eexists.
    + exists info. split; [done|].
      destruct (Hdef info Hinfo) as (Hmin & Hmax & Hnil & Hdflt).
      repeat split; [by apply Hmin|by apply Hmax|by apply Hnil
                    |by apply Hdflt].
  - destruct (element_occurrence_defaults
                (element_decl "item" (builtin_type "xs:int") (VInt 0) VNone))
      as [Hdef Hret].
    destruct (Hret (VStr (py "item")) (builtin_type "xs:int") eq_refl eq_refl)
      as [info Hinfo].
    + right. by eexists.
    + exists info. split; [done|].
      destruct (Hdef info Hinfo) as (_ & _ & Hnil & Hdflt).
      split; [by injection Hinfo as <-|]. split; [by injection Hinfo as <-|].
      split; [by apply Hnil|by apply Hdflt].
Defined.

(** C7, as the code has it: for a type whose attribute collection is a
    mapping ([values()] yields its declarations, and it is true exactly when
    it has one) of declarations that have a name and a type,
    [extract_type_info] returns; when there is no declaration the key
    [attributes] is left out, and otherwise it is a list with one entry for
    each declaration, in the order of [values()], equal declarations giving
    equal entries at their own places. *)
Theorem attributes_in_declaration_order (type_obj group values : pyval)
    (declared : list pyval) :
  attr_of type_obj "attributes" = Some group →
  attr_of group "values" = Some values →
  iterate values = (declared, None) →
  (truthy group = true ↔ declared ≠ []) →
  Forall (λ a, hasattr a "name" = true ∧ hasattr a "type" = true) declared →
  ∃ info, extract_type_info type_obj = Ok info
    ∧ match declared with
      | [] => attributes info = None
      | _ :: _ =>
          ∃ entries, attributes info = Some entries
            ∧ length entries = length declared
            ∧ Forall2 (λ a e, attribute_info a = Ok e) declared entries
      end.
Proof.
  intros Hgroup Hvalues Hiter Htruth Hdecl.
  assert (Hentries : ∃ entries, mapM attribute_info declared = Ok entries).
  { apply mapM_total. eapply Forall_impl; [done|].
    intros a [Hn Ht]. by apply attribute_info_total. }
  destruct Hentries as [entries Hentries].
  assert (Hattrs : type_attributes type_obj
                   = Ok (match declared with
                         | [] => None
                         | _ :: _ => Some entries
                         end)).
  { unfold type_attributes, attr_truthy. rewrite Hgroup.
    destruct declared as [|a declared].
    - destruct (truthy group); [|done].
      by destruct (proj1 Htruth eq_refl).
    - rewrite (proj2 Htruth) by done.
      unfold getattr. rewrite Hvalues. simpl.
      unfold comprehension. rewrite Hiter. cbn [fst snd].
      by rewrite Hentries. }
  destruct (extract_type_info_returns _ _ Hattrs) as (info & Hinfo & Ha & _).
  exists info. split; [done|]. destruct declared as [|a declared]; [done|].
  exists entries. split; [done|].
  apply mapM_Ok_Forall2 in Hentries. split; [|done].
  symmetry. by eapply Forall2_length.
Qed.

Lemma attributes_in_declaration_order_witness :
  ∃ info,
    extract_type_info
      (complex_type "t" (attribute_group two_attributes) simple_content)
    = Ok info
    ∧ ∃ entries, attributes info = Some entries
        ∧ length entries = length two_attributes
        ∧ Forall2 (λ a e, attribute_info a = Ok e) two_attributes entries.
Proof.
  apply (attributes_in_declaration_order
           (complex_type "t" (attribute_group two_attributes) simple_content)
           (attribute_group two_attributes)
           (bound_method two_attributes None) two_attributes).
  - reflexivity.
  - reflexivity.
  - reflexivity.
  - split; [intros _; discriminate|reflexivity].
  - repeat constructor.
Defined.

(** C7, as stated, fails for N = 0: a complex type with an empty attribute
    collection has no [attributes] key in its description, not a list of
    length 0. *)
Lemma no_attributes_key_when_empty :
  ∃ info,
    extract_type_info (complex_type "t" (attribute_group []) simple_content)
    = Ok info
    ∧ attributes info = None
    ∧ ¬ ∃ entries, attributes info = Some entries ∧ length entries = 0%nat.
Proof.
  eexists. split; [reflexivity|]. split; [reflexivity|].
  intros (entries & H & _). discriminate.
Qed.

(** C8: for a type whose content has no [iter_elements], or for which
    [list(content.iter_elements())] raises, every description that
    [extract_type_info] returns is without [child_elements]; the function
    returns whenever the attribute collection is read without an exception;
    and an exception that leaves it is the one raised while reading the
    attribute collection, never one of the iteration. *)
Theorem failed_iteration_swallowed (type_obj content : pyval) :
  attr_of type_obj "content" = Some content →
  hasattr content "iter_elements" = false
  ∨ (∃ e, list_iter_elements content = Raise e) →
  (∀ info, extract_type_info type_obj = Ok info → child_elements info = None)
  ∧ (∀ attrs, type_attributes type_obj = Ok attrs →
       ∃ info, extract_type_info type_obj = Ok info
               ∧ child_elements info = None)
  ∧ (∀ e, extract_type_info type_obj = Raise e →
       type_attributes type_obj = Raise e).
Proof.
  intros Hc Hfail.
  pose proof (child_elements_not_enumerated _ _ Hc Hfail) as Hnone.
  split; [|split].
  - intros info (_ & -> & _)%extract_type_info_Ok. done.
  - intros attrs (info & Hinfo & _ & Hch)%extract_type_info_returns.
    exists info. split; [done|]. by rewrite Hch.
  - apply extract_type_info_Raise.
Qed.

Lemma failed_iteration_swallowed_witness :
  ∃ info, extract_type_info failing_type = Ok info
          ∧ child_elements info = None.
Proof.
  destruct (failed_iteration_swallowed failing_type
              (model_group true [bare_element "a" VNone] (Some depth_error))
              eq_refl) as (_ & Hret & _).
  - right. exists depth_error. reflexivity.
  - apply (Hret None). reflexivity.
Defined.

(** With the same elements and no exception the key is present. *)
Lemma enumerated_children_present :
  ∃ info children,
    extract_type_info
      (complex_type "t" (attribute_group [])
         (model_group true [bare_element "a" VNone] None)) = Ok info
    ∧ child_elements info = Some children ∧ length children = 1%nat.
Proof. do 2 eexists. split; [reflexivity|]. split; reflexivity. Qed.

Lemma with_content_same_attributes (cls : pystr) (truth : bool) (text : pystr)
    (attrs : list (string * pyval)) (call : option (list pyval * option exn))
    (c c' : pyval) :
  type_attributes (with_content cls truth text attrs call c)
  = type_attributes (with_content cls truth text attrs call c')
  ∧ qualified_or_name (with_content cls truth text attrs call c)
    = qualified_or_name (with_content cls truth text attrs call c')
  ∧ attr_or (with_content cls truth text attrs call c) "qualified_name" VNone
    = attr_or (with_content cls truth text attrs call c') "qualified_name"
        VNone.
Proof. done. Qed.

Lemma with_content_model (cls : pystr) (truth : bool) (text : pystr)
    (attrs : list (string * pyval)) (call : option (list pyval * option exn))
    (c : pyval) :
  type_content_model (with_content cls truth text attrs call c)
  = if truthy c then Some (class_name c) else None.
Proof.
  unfold type_content_model, attr_truthy. simpl. by destruct (truthy c).
Qed.

(** C10: for a type whose content has [iter_elements] and for which
    [list(content.iter_elements())] is the empty list, the descriptions that
    [extract_type_info] and [extract_complex_type_info] return are without
    [child_elements] (the key is left out, it is not an empty list), and
    [extract_type_info] returns whenever the attribute collection is read
    without an exception. The description is then the one of the same type
    with a content of the same class and truth value that has no
    [iter_elements] or whose iteration raises. *)
Theorem empty_iteration_omitted (content : pyval) :
  list_iter_elements content = Ok [] →
  hasattr content "iter_elements" = true
  ∧ (∀ type_obj, attr_of type_obj "content" = Some content →
       (∀ info, extract_type_info type_obj = Ok info →
                child_elements info = None)
       ∧ (∀ info, extract_complex_type_info type_obj = Ok info →
                  child_elements info = None)
       ∧ (∀ attrs, type_attributes type_obj = Ok attrs →
            ∃ info, extract_type_info type_obj = Ok info
                    ∧ child_elements info = None))
  ∧ (∀ content' cls truth text attrs call,
       class_name content' = class_name content →
       truthy content' = truthy content →
       hasattr content' "iter_elements" = false
       ∨ (∃ e, list_iter_elements content' = Raise e) →
       extract_type_info (with_content cls truth text attrs call content)
       = extract_type_info (with_content cls truth text attrs call content')
       ∧ extract_complex_type_info
           (with_content cls truth text attrs call content)
         = extract_complex_type_info
             (with_content cls truth text attrs call content')).
Proof.
  intros Hempty. split; [|split].
  - unfold list_iter_elements, getattr in Hempty. unfold hasattr.
    by destruct (attr_of content "iter_elements").
  - intros type_obj Hc.
    pose proof (child_elements_empty _ _ Hc Hempty) as Hnone.
    split; [|split].
    + intros info (_ & -> & _)%extract_type_info_Ok. done.
    + intros info ->%extract_complex_type_info_Ok. done.
    + intros attrs (info & Hinfo & _ & Hch)%extract_type_info_returns.
      exists info. split; [done|]. by rewrite Hch.
  - intros content' cls truth text attrs call Hcls Htruth Hfail.
    assert (H1 : type_child_elements
                   (with_content cls truth text attrs call content) = None)
      by (by eapply child_elements_empty).
    assert (H2 : type_child_elements
                   (with_content cls truth text attrs call content') = None)
      by (by eapply child_elements_not_enumerated).
    destruct (with_content_same_attributes cls truth text attrs call
                content content') as (Ha & Hn & Hq).
    unfold extract_type_info, extract_complex_type_info.
    rewrite H1, H2, Ha, Hn, Hq, !with_content_model, Hcls, Htruth.
    done.
Qed.

Lemma empty_iteration_omitted_witness :
  (∃ info, extract_type_info empty_group_type = Ok info
           ∧ child_elements info = None)
  ∧ extract_type_info empty_group_type
    = extract_type_info
        (with_content (py "XsdComplexType") true (py "t")
           [("attributes"%string, attribute_group [])] None
           (model_group true [] (Some depth_error))).
Proof.
  destruct (empty_iteration_omitted (model_group true [] None) eq_refl)
    as (_ & Homit & Hsame).
  split.
  - destruct (Homit empty_group_type eq_refl) as (_ & _ & Hret).
    apply (Hret None). reflexivity.
  - apply (Hsame (model_group true [] (Some depth_error))
             (py "XsdComplexType") true (py "t")
             [("attributes"%string, attribute_group [])] None
             eq_refl eq_refl).
    right. exists depth_error. reflexivity.
Defined.

(** * Further properties *)

(** ** Whitespace around a line *)

Lemma all_space_Forall (w : pystr) :
  all_space w = true ↔ Forall (λ c, is_space c = true) w.
Proof.
  unfold all_space. induction w as [|c w IH]; simpl.
  - split; [constructor|done].
  - rewrite andb_true_iff, IH, Forall_cons. done.
Qed.

Lemma lstrip_spaces (w x : pystr) :
  all_space w = true → lstrip (w ++ x) = lstrip x.
Proof.
  intros Hw%all_space_Forall. induction Hw as [|c w Hc _ IH]; simpl; [done|].
  by rewrite Hc.
Qed.

Lemma lstrip_app (a x : pystr) :
  lstrip (a ++ x) = match lstrip a with
                    | [] => lstrip x
                    | _ :: _ => lstrip a ++ x
                    end.
Proof.
  induction a as [|c a IH]; simpl; [by destruct (lstrip x)|].
  destruct (is_space c); [done|]. done.
Qed.

Lemma lstrip_idemp (s : pystr) : lstrip (lstrip s) = lstrip s.
Proof.
  induction s as [|c s IH]; simpl; [done|].
  destruct (is_space c) eqn:Hc; [done|]. simpl. by rewrite Hc.
Qed.

Lemma lstrip_head (s : pystr) (c : codepoint) (r : pystr) :
  lstrip s = c :: r → is_space c = false.
Proof.
  induction s as [|c' s IH]; simpl; [done|].
  destruct (is_space c') eqn:Hc; [done|]. by intros [= <- _].
Qed.

Lemma rstrip_spaces (y w : pystr) :
  all_space w = true → rstrip (y ++ w) = rstrip y.
Proof.
  intros Hw. unfold rstrip. rewrite rev_app_distr, lstrip_spaces; [done|].
  apply all_space_Forall. apply all_space_Forall in Hw.
  by apply Forall_rev.
Qed.

Lemma rstrip_cons (c : codepoint) (s : pystr) :
  is_space c = false → rstrip (c :: s) = c :: rstrip s.
Proof.
  intros Hc. unfold rstrip. simpl. rewrite lstrip_app.
  destruct (lstrip (rev s)) as [|d r] eqn:E; simpl.
  - by rewrite Hc.
  - by rewrite rev_app_distr.
Qed.

Lemma rstrip_idemp (s : pystr) : rstrip (rstrip s) = rstrip s.
Proof. unfold rstrip. by rewrite rev_involutive, lstrip_idemp. Qed.

Lemma strip_idemp (s : pystr) : strip (strip s) = strip s.
Proof.
  unfold strip. destruct (lstrip s) as [|c r] eqn:E; [done|].
  pose proof (lstrip_head _ _ _ E) as Hc.
  rewrite rstrip_cons by done. simpl. rewrite Hc.
  rewrite <- rstrip_cons by done. apply rstrip_idemp.
Qed.

Lemma strip_surrounded (w1 s w2 : pystr) :
  all_space w1 = true → all_space w2 = true →
  strip (w1 ++ s ++ w2) = strip s.
Proof.
  intros H1 H2. unfold strip. rewrite lstrip_spaces by done.
  rewrite lstrip_app. destruct (lstrip s) as [|c r] eqn:E.
  - rewrite <- (app_nil_r w2), lstrip_spaces by done. done.
  - by rewrite rstrip_spaces.
Qed.

(** X1: what a catalog line does is not changed by whitespace before and
    after it (indentation, trailing blanks, the line terminator), nor by
    removing the whitespace around it. *)
Theorem surrounding_whitespace_ignored (w1 s w2 : pystr) :
  all_space w1 = true → all_space w2 = true →
  read_line (w1 ++ s ++ w2) = read_line s
  ∧ read_line (strip s) = read_line s.
Proof.
  intros H1 H2. unfold read_line.
  by rewrite strip_surrounded, strip_idemp.
Qed.

Lemma surrounding_whitespace_ignored_witness :
  read_line (py "   " ++ (py "BASE " ++ quoted (py "x/")) ++ [9; CR; LF])
  = read_line (py "BASE " ++ quoted (py "x/"))
  ∧ read_line (strip (py "BASE " ++ quoted (py "x/")))
    = read_line (py "BASE " ++ quoted (py "x/")).
Proof.
  apply (surrounding_whitespace_ignored (py "   ")
           (py "BASE " ++ quoted (py "x/")) [9; CR; LF]); reflexivity.
Defined.

(** ** Lines without effect *)

(** X2: the lines on which the loop body does nothing (blank lines, comments,
    lines that are neither BASE nor URI lines, BASE and URI lines with too
    few fields) can be removed from a catalog without changing the outcome
    of the loop, be it a state or an exception. *)
Theorem skipped_lines_removable (resolve : PosixPath → result PosixPath)
    (dir : PosixPath) (st : parser_state) (lines : list pystr) :
  parse_lines resolve dir st (filter (λ l, is_skip l = false) lines)
  = parse_lines resolve dir st lines.
Proof.
  revert st. induction lines as [|l lines IH]; intros st; [done|].
  destruct (is_skip l) eqn:Hl.
  - rewrite filter_cons_False by (rewrite Hl; done).
    rewrite IH. simpl. unfold process_line. unfold is_skip in Hl.
    by destruct (read_line l).
  - rewrite filter_cons_True by done. simpl.
    destruct (process_line resolve dir st l); simpl; [apply IH|done].
Qed.

Lemma count_char_split (sep : codepoint) (s : pystr) :
  length (str_split sep s) = S (count_char sep s).
Proof.
  induction s as [|c s IH]; simpl; [done|].
  destruct (c =? sep); simpl; [by rewrite IH|].
  destruct (str_split sep s); simpl in *; done.
Qed.

Lemma startswith_URI_not_BASE (s : pystr) :
  startswith s (py "URI") = true → startswith s (py "BASE") = false.
Proof.
  change (py "URI") with [85; 82; 73]. change (py "BASE") with [66; 65; 83; 69].
  destruct s as [|c s]; [done|]. simpl.
  destruct (N.eqb_spec c 85) as [->|]; [done|].
  by rewrite andb_false_l.
Qed.

(** X3: a URI line with fewer than three double quotes assigns nothing, and
    a BASE line without any double quote leaves the base as it is: such
    lines are skipped, not reported. *)
Theorem too_few_fields_skipped (raw : pystr) :
  (startswith (strip raw) (py "URI") = true →
   (count_char DQUOTE (strip raw) < 3)%nat →
   read_line raw = Skip)
  ∧ (startswith (strip raw) (py "BASE") = true →
     count_char DQUOTE (strip raw) = 0%nat →
     read_line raw = Skip).
Proof.
  unfold read_line. pose proof (count_char_split DQUOTE (strip raw)) as Hlen.
  split; intros Hstart Hcount.
  - destruct (negb _ || _); [done|].
    destruct (startswith (strip raw) (py "BASE")) eqn:Hb.
    + by rewrite (startswith_URI_not_BASE _ Hstart) in Hb.
    + rewrite Hstart.
      destruct (str_split DQUOTE (strip raw)) as [|f0 [|f1 [|f2 [|f3 fs]]]];
        simpl in Hlen; try done. lia.
  - destruct (negb _ || _); [done|]. rewrite Hstart.
    destruct (str_split DQUOTE (strip raw)) as [|f0 [|f1 fs]];
      simpl in Hlen; try done. lia.
Qed.

Lemma too_few_fields_skipped_witness :
  read_line (py "URI " ++ quoted (py "urn:a") ++ py " a.xsd" ++ [LF]) = Skip
  ∧ read_line (py "BASE schemas/" ++ [LF]) = Skip.
Proof.
  split.
  - destruct (too_few_fields_skipped
                (py "URI " ++ quoted (py "urn:a") ++ py " a.xsd" ++ [LF]))
      as [Huri _].
    apply Huri; [reflexivity|]. vm_compute. lia.
  - destruct (too_few_fields_skipped (py "BASE schemas/" ++ [LF]))
      as [_ Hbase].
    apply Hbase; reflexivity.
Defined.

(** ** The fields of a line *)

Lemma not_elem_of_literal_app (c : codepoint) (a b : pystr) :
  bool_decide (c ∈ a) = false → c ∉ b → c ∉ a ++ b.
Proof.
  intros Ha%bool_decide_eq_false Hb. rewrite elem_of_app. tauto.
Qed.

(** X4: in a URI line only the first two quoted fields count: whatever
    stands between the keyword and the first quote, between the two fields
    and after the second one is not read, so a third quoted field, a comment
    or a missing closing quote change nothing. *)
Theorem uri_line_fields (raw j0 urn j1 p rest : pystr) :
  strip raw = py "URI" ++ j0 ++ quoted urn ++ j1 ++ DQUOTE :: p ++ rest →
  DQUOTE ∉ j0 → DQUOTE ∉ urn → DQUOTE ∉ j1 → DQUOTE ∉ p →
  rest = [] ∨ (∃ rest', rest = DQUOTE :: rest') →
  read_line raw = AddUri urn p.
Proof.
  intros Hraw H0 Hurn H1 Hp Hrest. unfold read_line. rewrite Hraw.
  assert (Hsplit : ∃ f0 f2 fs,
    str_split DQUOTE (py "URI" ++ j0 ++ quoted urn ++ j1 ++ DQUOTE :: p ++ rest)
    = f0 :: urn :: f2 :: p :: fs).
  { exists (py "URI" ++ j0), j1. unfold quoted.
    replace (py "URI" ++ j0 ++ (DQUOTE :: urn ++ [DQUOTE])
             ++ j1 ++ DQUOTE :: p ++ rest)
      with ((py "URI" ++ j0) ++ DQUOTE :: urn ++ DQUOTE :: j1
            ++ DQUOTE :: p ++ rest)
      by (by simpl; rewrite <- !app_assoc).
    rewrite str_split_app
      by (by apply not_elem_of_literal_app).
    rewrite str_split_app by done. rewrite str_split_app by done.
    destruct Hrest as [->|[rest' ->]].
    - rewrite app_nil_r, str_split_no_sep by done. by exists [].
    - rewrite str_split_app by done. by eexists. }
  destruct Hsplit as (f0 & f2 & fs & ->).
  rewrite startswith_app.
  change (py "URI") with [85; 82; 73]. by simpl.
Qed.

Lemma uri_line_fields_witness :
  read_line (py "  URI  " ++ quoted (py "urn:a") ++ py " -- to " ++ [DQUOTE]
             ++ py "a.xsd" ++ [LF])
  = AddUri (py "urn:a") (py "a.xsd").
Proof.
  apply (uri_line_fields _ (py "  ") (py "urn:a") (py " -- to ") (py "a.xsd")
           []).
  - reflexivity.
  - apply not_elem_of_decide. reflexivity.
  - apply not_elem_of_decide. reflexivity.
  - apply not_elem_of_decide. reflexivity.
  - apply not_elem_of_decide. reflexivity.
  - by left.
Defined.

Lemma base_line_start (x : pystr) :
  negb (str_truthy (py "BASE" ++ x)) || startswith (py "BASE" ++ x) (py "--")
  = false.
Proof. reflexivity. Qed.

(** X5: a BASE line sets the base to its first quoted field, closed by a
    quote or by the end of the line, with one leading [../../] removed; what
    stands before the field and after it is not read. *)
Theorem base_line_field (raw j0 b rest : pystr) :
  strip raw = py "BASE" ++ j0 ++ DQUOTE :: b ++ rest →
  DQUOTE ∉ j0 → DQUOTE ∉ b →
  rest = [] ∨ (∃ rest', rest = DQUOTE :: rest') →
  read_line raw
  = SetBase (if startswith b (py "../../") then drop 6 b else b).
Proof.
  intros Hraw H0 Hb Hrest. unfold read_line. rewrite Hraw.
  assert (Hsplit : ∃ f0 fs,
    str_split DQUOTE (py "BASE" ++ j0 ++ DQUOTE :: b ++ rest) = f0 :: b :: fs).
  { exists (py "BASE" ++ j0). rewrite app_assoc.
    rewrite str_split_app by (by apply not_elem_of_literal_app).
    destruct Hrest as [->|[rest' ->]].
    - rewrite app_nil_r, str_split_no_sep by done. by exists [].
    - rewrite str_split_app by done. by eexists. }
  destruct Hsplit as (f0 & fs & ->).
  rewrite startswith_app, base_line_start. cbv beta iota.
  by destruct (startswith b (py "../../")).
Qed.

Lemma base_line_field_witness :
  read_line (py "BASE=" ++ [DQUOTE] ++ py "schemas/v1") = SetBase (py "schemas/v1").
Proof.
  apply (base_line_field _ (py "=") (py "schemas/v1") []).
  - reflexivity.
  - apply not_elem_of_decide. reflexivity.
  - apply not_elem_of_decide. reflexivity.
  - by left.
Defined.

(** ** Absolute paths *)

Lemma parse_path_absolute (rest : pystr) :
  str_truthy (root (parse_path (SLASH :: rest))) = true.
Proof.
  unfold parse_path, splitroot. rewrite N.eqb_refl.
  destruct rest as [|c2 r2]; [done|].
  destruct (c2 =? SLASH); [|done].
  destruct r2 as [|c3 r3]; [done|]. by destruct (c3 =? SLASH).
Qed.

Lemma joinpath_absolute (p : PosixPath) (rest : pystr) :
  p </> (SLASH :: rest) = parse_path (SLASH :: rest).
Proof. unfold joinpath. by rewrite parse_path_absolute. Qed.

(** X6: a local path that starts with a slash is taken as it is, whatever
    the directory of the catalog and the base; and a base that starts with a
    slash replaces the directory of the catalog. *)
Theorem absolute_paths_replace (dir : PosixPath) (base : option pystr)
    (rest local_path : pystr) :
  full_path dir base (SLASH :: rest) = parse_path (SLASH :: rest)
  ∧ full_path dir (Some (SLASH :: rest)) local_path
    = parse_path (SLASH :: rest) </> local_path.
Proof.
  unfold full_path. split.
  - destruct (base_truthy base); apply joinpath_absolute.
  - simpl. by rewrite joinpath_absolute.
Qed.

(** ** Exceptions of the loop *)

(** X7: when [resolve] raises for the path of a URI line and the lines
    before it were read without an exception, [parse_catalog] raises that
    exception: no map is returned, whatever the lines that follow. *)
Theorem resolve_error_propagates (read_text : pystr → result pystr)
    (resolve : PosixPath → result PosixPath) (catalog_path text : pystr)
    (pre post : list pystr) (l urn p : pystr) (st : parser_state) (e : exn) :
  read_text catalog_path = Ok text →
  readlines text = pre ++ l :: post →
  parse_lines resolve (catalog_dir_of catalog_path) initial_state pre = Ok st →
  read_line l = AddUri urn p →
  resolve (full_path (catalog_dir_of catalog_path) (current_base st) p)
  = Raise e →
  parse_catalog read_text resolve catalog_path = Raise e.
Proof.
  intros Hread Hlines Hpre Hl He. unfold parse_catalog.
  rewrite Hread. simpl. rewrite Hlines, parse_lines_app, Hpre. simpl.
  unfold process_line. rewrite Hl, He. done.
Qed.

Lemma resolve_error_propagates_witness :
  parse_catalog (single_file example_path nul_catalog) (resolve_nolinks [])
    example_path
  = Raise ValueError.
Proof.
  apply (resolve_error_propagates (single_file example_path nul_catalog)
           (resolve_nolinks []) example_path nul_catalog
           (take 1 (readlines nul_catalog)) (drop 2 (readlines nul_catalog))
           (py "URI " ++ quoted (py "urn:b") ++ py " "
            ++ quoted (py "b" ++ [0] ++ py ".xsd") ++ [LF])
           (py "urn:b") (py "b" ++ [0] ++ py ".xsd")
           {| urn_map := [(py "urn:a", py "/cat/a.xsd")];
              current_base := None |}); reflexivity.
Defined.

(** ** The keys of the map *)

Lemma dict_keys_set_elem (d : dict) (k v k' : pystr) :
  k' ∈ dict_keys (dict_set d k v) ↔ k' ∈ dict_keys d ∨ k' = k.
Proof.
  destruct (decide (k ∈ dict_keys d)) as [Hin|Hin].
  - rewrite dict_keys_set_in by done. split; [auto|]. by intros [?| ->].
  - rewrite dict_keys_set_notin by done.
    rewrite elem_of_app, list_elem_of_singleton. done.
Qed.

Lemma parse_lines_keys (resolve : PosixPath → result PosixPath)
    (dir : PosixPath) (st st' : parser_state) (lines : list pystr)
    (k : pystr) :
  parse_lines resolve dir st lines = Ok st' →
  k ∈ dict_keys (urn_map st')
  ↔ k ∈ dict_keys (urn_map st) ∨ k ∈ declared_urns lines.
Proof.
  revert st. induction lines as [|l lines IH]; intros st; simpl.
  - intros [= <-]. rewrite elem_of_nil. tauto.
  - unfold process_line. destruct (read_line l) as [|b|urn p]; simpl.
    + apply IH.
    + intros H. by rewrite (IH _ H).
    + destruct (resolve _) as [q|e]; simpl; [|done].
      intros H. rewrite (IH _ H). simpl.
      rewrite dict_keys_set_elem, elem_of_cons. tauto.
Qed.

(** X8: the keys of the map that [parse_catalog] returns are the names that
    the URI lines of the catalog declare, all of them and no other. *)
Theorem keys_are_declared_urns (read_text : pystr → result pystr)
    (resolve : PosixPath → result PosixPath) (catalog_path text : pystr)
    (m : dict) (k : pystr) :
  read_text catalog_path = Ok text →
  parse_catalog read_text resolve catalog_path = Ok m →
  k ∈ dict_keys m ↔ k ∈ declared_urns (readlines text).
Proof.
  intros Hread (st & Hst & ->)%(parse_catalog_Ok _ _ _ _ _ Hread).
  rewrite (parse_lines_keys _ _ _ _ _ k Hst). simpl.
  rewrite elem_of_nil. tauto.
Qed.

Lemma keys_are_declared_urns_witness :
  py "urn:y" ∈ dict_keys [(py "urn:x", py "/cat/v2/new.xsd");
                          (py "urn:y", py "/cat/v2/y.xsd")]
  ↔ py "urn:y" ∈ declared_urns (readlines twice_catalog).
Proof.
  apply (keys_are_declared_urns (single_file example_path twice_catalog)
           (resolve_nolinks []) example_path twice_catalog); reflexivity.
Defined.

Lemma parse_lines_no_uri (resolve : PosixPath → result PosixPath)
    (dir : PosixPath) (st : parser_state) (lines : list pystr) :
  declared_urns lines = [] →
  ∃ st', parse_lines resolve dir st lines = Ok st'
         ∧ urn_map st' = urn_map st.
Proof.
  revert st. induction lines as [|l lines IH]; intros st; simpl; [eauto|].
  unfold process_line. destruct (read_line l) as [|b|urn p]; simpl.
  - apply IH.
  - intros H. by apply (IH (mkState (urn_map st) (Some b))).
  - done.
Qed.

(** X9: a catalog without a URI line that has its two fields gives the empty
    map, not an exception, and [resolve] is not called: the result is the
    same on every file system that holds the file. An empty file is such a
    catalog. *)
Theorem no_uri_lines_empty_map (read_text : pystr → result pystr)
    (resolve : PosixPath → result PosixPath) (catalog_path text : pystr) :
  read_text catalog_path = Ok text →
  declared_urns (readlines text) = [] →
  parse_catalog read_text resolve catalog_path = Ok [].
Proof.
  intros Hread Hnone. apply (parse_catalog_Ok _ _ _ _ _ Hread).
  destruct (parse_lines_no_uri resolve (catalog_dir_of catalog_path)
              initial_state _ Hnone) as (st & Hst & Hmap).
  exists st. by rewrite Hmap in *.
Qed.

Lemma no_uri_lines_empty_map_witness :
  parse_catalog (single_file example_path no_uri_catalog) resolve_fails
    example_path = Ok []
  ∧ parse_catalog (single_file example_path []) resolve_fails example_path
    = Ok [].
Proof.
  split.
  - apply (no_uri_lines_empty_map (single_file example_path no_uri_catalog)
             resolve_fails example_path no_uri_catalog); reflexivity.
  - apply (no_uri_lines_empty_map (single_file example_path [])
             resolve_fails example_path []); reflexivity.
Defined.

(** ** The resolver on parsed maps *)

Lemma unquote_no_percent (u : pystr) : PERCENT ∉ u → unquote u = u.
Proof. intros H. unfold unquote. by rewrite bool_decide_eq_false_2. Qed.

(** X10: on the map of a parsed catalog, a key without a percent sign
    resolves to its stored path, and the key is the only one looked up. *)
Theorem parsed_key_resolves (read_text : pystr → result pystr)
    (resolve : PosixPath → result PosixPath) (catalog_path : pystr)
    (m : dict) (u v : pystr) :
  parse_catalog read_text resolve catalog_path = Ok m →
  PERCENT ∉ u →
  dict_get m u = Some v →
  uri_mapper m (Some u) = ([u], Some v).
Proof.
  intros Hm Hu Hget.
  pose proof (parse_catalog_values _ _ _ _ _ _ Hm Hget) as Hv.
  unfold uri_mapper. rewrite (unquote_no_percent _ Hu).
  by rewrite (get_truthy_Some _ _ _ Hget Hv).
Qed.

Lemma parsed_key_resolves_witness :
  uri_mapper [(py "urn:x", py "/cat/v2/new.xsd");
              (py "urn:y", py "/cat/v2/y.xsd")] (Some (py "urn:y"))
  = ([py "urn:y"], Some (py "/cat/v2/y.xsd")).
Proof.
  apply (parsed_key_resolves (single_file example_path twice_catalog)
           (resolve_nolinks []) example_path).
  - reflexivity.
  - apply not_elem_of_decide. reflexivity.
  - reflexivity.
Defined.

Lemma get_truthy_inv (d : dict) (k r : pystr) :
  get_truthy (dict_get d k) = Some r → dict_get d k = Some r ∧ r ≠ [].
Proof. destruct (dict_get d k) as [[|c s]|]; simpl; [done| |done]. by intros [= <-]. Qed.

(** X11: for a string the mapper never returns [None]: it returns either a
    non-empty path stored under the decoded or the given form, or the given
    string itself; it looks up the decoded form first and at most two keys;
    and a stored empty string counts as no entry. *)
Theorem uri_mapper_range (m : dict) (u : pystr) :
  (∃ r, (uri_mapper m (Some u)).2 = Some r
        ∧ (r = u
           ∨ (r ≠ [] ∧ (dict_get m (unquote u) = Some r
                        ∨ dict_get m u = Some r))))
  ∧ head (uri_mapper m (Some u)).1 = Some (unquote u)
  ∧ (length (uri_mapper m (Some u)).1 ≤ 2)%nat
  ∧ (dict_get m (unquote u) = Some [] → dict_get m u = Some [] →
     (uri_mapper m (Some u)).2 = Some u).
Proof.
  unfold uri_mapper.
  destruct (get_truthy (dict_get m (unquote u))) as [r|] eqn:Hd.
  - apply get_truthy_inv in Hd as [Hd Hr]. simpl.
    split; [exists r; split; [done|]; right; auto|].
    split; [done|]. split; [lia|]. intros H. rewrite H in Hd. by injection Hd as <-.
  - destruct (get_truthy (dict_get m u)) as [r|] eqn:Hu.
    + apply get_truthy_inv in Hu as [Hu Hr]. simpl.
      split; [exists r; split; [done|]; right; auto|].
      split; [done|]. split; [lia|]. intros _ H. rewrite H in Hu.
      by injection Hu as <-.
    + simpl. split; [exists u; auto|]. done.
Qed.

(** ** The flags of a type *)

Lemma startswith_spec (s p : pystr) :
  startswith s p = true ↔ ∃ r, s = p ++ r.
Proof.
  revert s. induction p as [|c p IH]; intros s; simpl.
  - split; [eauto|done].
  - destruct s as [|d s].
    + split; [done|]. by intros [r Hr].
    + rewrite andb_true_iff, IH, N.eqb_eq. split.
      * intros [-> [r ->]]. eauto.
      * intros [r [= -> ->]]. eauto.
Qed.

Lemma contains_spec (s needle : pystr) :
  contains s needle = true ↔ ∃ a b, s = a ++ needle ++ b.
Proof.
  induction s as [|c s IH]; simpl.
  - rewrite orb_false_r, startswith_spec. split.
    + intros [r Hr]. by exists [], r.
    + intros (a & b & H). destruct a; [|done]. eauto.
  - rewrite orb_true_iff, startswith_spec, IH. split.
    + intros [[r Hr]|(a & b & ->)]; [by exists [], r|].
      by exists (c :: a), b.
    + intros (a & b & H). destruct a as [|c' a]; [left; eauto|].
      right. injection H as _ ->. eauto.
Qed.

(** X12: in a description of [extract_type_info] the category is the name
    of the class of the type object, [is_complex] says that this name has
    [Complex] somewhere in it and [is_simple] that it has [Simple] somewhere
    in it; the two flags are read off the name, one does not exclude the
    other. *)
Theorem flags_from_class_name (type_obj : pyval) (info : TypeInfo) :
  extract_type_info type_obj = Ok info →
  category info = class_name type_obj
  ∧ (is_complex info = true
     ↔ ∃ a b, class_name type_obj = a ++ py "Complex" ++ b)
  ∧ (is_simple info = true
     ↔ ∃ a b, class_name type_obj = a ++ py "Simple" ++ b).
Proof.
  unfold extract_type_info.
  destruct (type_attributes type_obj) as [attrs|e]; simpl; [|done].
  intros [= <-]. simpl. split; [done|]. split; apply contains_spec.
Qed.

Lemma flags_from_class_name_witness :
  ∃ info,
    extract_type_info
      (VObj (py "XsdSimpleContentComplexType") true (py "t") [] None)
    = Ok info
    ∧ is_complex info = true ∧ is_simple info = true.
Proof.
  eexists. split; [reflexivity|].
  destruct (flags_from_class_name
              (VObj (py "XsdSimpleContentComplexType") true (py "t") [] None)
              _ eq_refl) as (_ & Hc & Hs).
  split.
  - apply Hc. by exists (py "XsdSimpleContent"), (py "Type").
  - apply Hs. by exists (py "Xsd"), (py "ContentComplexType").
Defined.

(** ** Child elements *)

Lemma child_info_total (elem : pyval) :
  hasattr elem "qualified_name" = true → hasattr elem "name" = true →
  hasattr elem "type" = true →
  ∃ e, child_info elem = Ok e.
Proof.
  intros [q Hq]%hasattr_getattr [n Hn]%hasattr_getattr
    [ty Hty]%hasattr_getattr.
  unfold child_info. rewrite Hq. simpl.
  destruct (truthy q); simpl; [|rewrite Hn; simpl]; rewrite Hty; simpl;
    by eexists.
Qed.

(** X13: for a type with a true content whose [iter_elements()] yields at
    least one element and raises nothing, the elements having their names
    and a [type] attribute, [child_elements] is a list with one entry for
    each element, in the order of the iteration; an entry has the occurrence
    bounds 1 and 1 where the element has none. *)
Theorem child_elements_in_iteration_order (type_obj content method : pyval)
    (elements : list pyval) :
  attr_of type_obj "content" = Some content →
  truthy content = true →
  attr_of content "iter_elements" = Some method →
  iterate method = (elements, None) →
  elements ≠ [] →
  Forall (λ el, hasattr el "qualified_name" = true
                ∧ hasattr el "name" = true
                ∧ hasattr el "type" = true) elements →
  ∃ entries, type_child_elements type_obj = Some entries
    ∧ length entries = length elements
    ∧ Forall2 (λ el e, child_info el = Ok e
                 ∧ (hasattr el "min_occurs" = false →
                    child_min_occurs e = VInt 1)
                 ∧ (hasattr el "max_occurs" = false →
                    child_max_occurs e = VInt 1)) elements entries.
Proof.
  intros Hc Ht Hm Hiter Hne Hwf.
  assert (Hentries : ∃ entries, mapM child_info elements = Ok entries).
  { apply mapM_total. eapply Forall_impl; [done|].
    intros el (Hq & Hn & Hty). by apply child_info_total. }
  destruct Hentries as [entries Hentries]. exists entries.
  split.
  { unfold type_child_elements, attr_truthy, hasattr. rewrite Hc, Ht, Hm.
    unfold iter_child_elements, list_iter_elements, getattr.
    rewrite Hm. simpl. rewrite Hiter. simpl.
    destruct elements as [|el els]; [done|]. by rewrite Hentries. }
  apply mapM_Ok_Forall2 in Hentries. split.
  { symmetry. by eapply Forall2_length. }
  eapply Forall2_impl; [done|]. intros el e Hel. split; [done|].
  unfold child_info in Hel.
  destruct (getattr el "qualified_name") as [q|]; simpl in Hel; [|done].
  destruct (if truthy q then _ else _) as [n|]; simpl in Hel; [|done].
  destruct (getattr el "type") as [ty|]; simpl in Hel; [|done].
  injection Hel as <-. simpl.
  split; intros H; by rewrite hasattr_false_attr_or.
Qed.

Lemma child_elements_in_iteration_order_witness :
  ∃ entries,
    type_child_elements
      (complex_type "t" (attribute_group [])
         (model_group true two_elements None)) = Some entries
    ∧ length entries = length two_elements
    ∧ Forall2 (λ el e, child_info el = Ok e
                 ∧ (hasattr el "min_occurs" = false →
                    child_min_occurs e = VInt 1)
                 ∧ (hasattr el "max_occurs" = false →
                    child_max_occurs e = VInt 1)) two_elements entries.
Proof.
  apply (child_elements_in_iteration_order
           (complex_type "t" (attribute_group [])
              (model_group true two_elements None))
           (model_group true two_elements None)
           (bound_method two_elements None) two_elements).
  - reflexivity.
  - reflexivity.
  - reflexivity.
  - reflexivity.
  - discriminate.
  - repeat constructor.
Defined.

Lemma mapM_Raise_elem {B} (f : pyval → result B) (items : list pyval)
    (a : pyval) (e : exn) :
  a ∈ items → f a = Raise e → ∃ e', mapM f items = Raise e'.
Proof.
  intros Hin Ha. induction Hin as [a items|a b items _ IH]; simpl.
  - rewrite Ha. by eexists.
  - destruct (f b); simpl; [|by eexists].
    destruct (IH Ha) as [e' ->]. by eexists.
Qed.

(** X14: when one of the elements that the iteration yields has no entry
    (it lacks an attribute that is read without a test), the whole key
    [child_elements] is left out, the entries of the other elements with it,
    and [extract_type_info] returns all the same. *)
Theorem one_bad_child_drops_all (type_obj content el : pyval)
    (elements : list pyval) (e : exn) :
  attr_of type_obj "content" = Some content →
  list_iter_elements content = Ok elements →
  el ∈ elements →
  child_info el = Raise e →
  type_child_elements type_obj = None
  ∧ (∀ attrs, type_attributes type_obj = Ok attrs →
       ∃ info, extract_type_info type_obj = Ok info
               ∧ child_elements info = None).
Proof.
  intros Hc Hlist Hin Hel.
  assert (Hnone : type_child_elements type_obj = None).
  { destruct (mapM_Raise_elem child_info elements el e Hin Hel) as [e' He'].
    eapply child_elements_block_raises with (e := e'); [done|].
    unfold iter_child_elements. rewrite Hlist. simpl.
    destruct elements as [|x xs]; [by apply elem_of_nil in Hin|].
    by rewrite He'. }
  split; [done|].
  intros attrs (info & Hinfo & _ & Hch)%extract_type_info_returns.
  exists info. split; [done|]. by rewrite Hch.
Qed.

Lemma one_bad_child_drops_all_witness :
  type_child_elements
    (complex_type "t" (attribute_group [])
       (model_group true (two_elements ++ [untyped_decl "c"]) None)) = None
  ∧ (∀ attrs,
       type_attributes
         (complex_type "t" (attribute_group [])
            (model_group true (two_elements ++ [untyped_decl "c"]) None))
       = Ok attrs →
       ∃ info,
         extract_type_info
           (complex_type "t" (attribute_group [])
              (model_group true (two_elements ++ [untyped_decl "c"]) None))
         = Ok info
         ∧ child_elements info = None).
Proof.
  apply (one_bad_child_drops_all _
           (model_group true (two_elements ++ [untyped_decl "c"]) None)
           (untyped_decl "c") (two_elements ++ [untyped_decl "c"])
           AttributeError).
  - reflexivity.
  - reflexivity.
  - apply elem_of_app. right. apply list_elem_of_singleton. reflexivity.
  - reflexivity.
Defined.

(** ** Attribute declarations that cannot be read *)

Lemma getattr_Raise (v : pyval) (name : string) (e : exn) :
  getattr v name = Raise e → e = AttributeError.
Proof. unfold getattr. destruct (attr_of v name); [done|]. by intros [= <-]. Qed.

Lemma hasattr_false_getattr (v : pyval) (name : string) :
  hasattr v name = false → getattr v name = Raise AttributeError.
Proof. unfold hasattr, getattr. by destruct (attr_of v name). Qed.

Lemma attribute_info_Raise (attr : pyval) (e : exn) :
  attribute_info attr = Raise e → e = AttributeError.
Proof.
  unfold attribute_info.
  destruct (getattr attr "name") as [n|e1] eqn:Hn; simpl.
  - destruct (getattr attr "type") as [ty|e2] eqn:Hty; simpl; [done|].
    intros [= <-]. by eapply getattr_Raise.
  - intros [= <-]. by eapply getattr_Raise.
Qed.

Lemma attribute_info_missing (attr : pyval) :
  hasattr attr "name" = false ∨ hasattr attr "type" = false →
  attribute_info attr = Raise AttributeError.
Proof.
  intros H. destruct (attribute_info attr) as [e|e] eqn:He.
  - unfold attribute_info in He.
    destruct H as [H|H]; rewrite (hasattr_false_getattr _ _ H) in He.
    + done.
    + by destruct (getattr attr "name").
  - by rewrite (attribute_info_Raise _ _ He).
Qed.

Lemma mapM_Raise_uniform {B} (f : pyval → result B) (items : list pyval)
    (a : pyval) (e : exn) :
  (∀ x e', f x = Raise e' → e' = e) →
  a ∈ items → f a = Raise e → mapM f items = Raise e.
Proof.
  intros Hall Hin Ha. induction Hin as [a items|a b items _ IH]; simpl.
  - by rewrite Ha.
  - destruct (f b) as [y|e'] eqn:Hb; simpl.
    + by rewrite (IH Ha).
    + by rewrite (Hall _ _ Hb).
Qed.

Lemma qualified_or_name_Raise (v : pyval) (e : exn) :
  qualified_or_name v = Raise e → e = AttributeError.
Proof.
  unfold qualified_or_name.
  destruct (getattr v "qualified_name") as [q|e1] eqn:Hq; simpl.
  - destruct (truthy q); [done|]. apply getattr_Raise.
  - intros [= <-]. by eapply getattr_Raise.
Qed.

(** X15: the attribute collection is read outside the [try] block: when a
    declaration that [values()] yields has no [name] or no [type] attribute,
    [extract_type_info] raises [AttributeError], whatever the other
    declarations and the content are, and so do [extract_complex_type_info]
    and [extract_element_info] for an element of that type. *)
Theorem bad_attribute_propagates (type_obj group values a : pyval)
    (declared : list pyval) (final : option exn) :
  attr_of type_obj "attributes" = Some group →
  truthy group = true →
  attr_of group "values" = Some values →
  iterate values = (declared, final) →
  a ∈ declared →
  hasattr a "name" = false ∨ hasattr a "type" = false →
  extract_type_info type_obj = Raise AttributeError
  ∧ extract_complex_type_info type_obj = Raise AttributeError
  ∧ (∀ element name,
       qualified_or_name element = Ok name →
       getattr element "type" = Ok type_obj →
       truthy type_obj = true →
       extract_element_info element = Raise AttributeError).
Proof.
  intros Hg Ht Hv Hiter Hin Ha.
  assert (Hattrs : type_attributes type_obj = Raise AttributeError).
  { unfold type_attributes, attr_truthy, getattr. rewrite Hg, Ht, Hv. simpl.
    unfold comprehension. rewrite Hiter. cbn [fst snd].
    rewrite (mapM_Raise_uniform attribute_info declared a AttributeError);
      [done| |done|by apply attribute_info_missing].
    intros x e'. apply attribute_info_Raise. }
  assert (Htype : extract_type_info type_obj = Raise AttributeError)
    by (unfold extract_type_info; by rewrite Hattrs).
  split; [done|]. split.
  - unfold extract_complex_type_info.
    destruct (qualified_or_name type_obj) as [n|e] eqn:Hn; simpl.
    + by rewrite Hattrs.
    + by rewrite (qualified_or_name_Raise _ _ Hn).
  - intros element name Hname Hty Htrue. unfold extract_element_info.
    rewrite Hname, Hty. simpl. by rewrite Htrue, Htype.
Qed.

Lemma bad_attribute_propagates_witness :
  extract_type_info bad_attribute_type = Raise AttributeError
  ∧ extract_element_info (bare_element "e" bad_attribute_type)
    = Raise AttributeError.
Proof.
  destruct (bad_attribute_propagates bad_attribute_type
              (attribute_group [attribute_decl "id" (builtin_type "xs:ID");
                                untyped_decl "x"])
              (bound_method [attribute_decl "id" (builtin_type "xs:ID");
                             untyped_decl "x"] None)
              (untyped_decl "x")
              [attribute_decl "id" (builtin_type "xs:ID"); untyped_decl "x"]
              None) as (Ht & _ & He).
  - reflexivity.
  - reflexivity.
  - reflexivity.
  - reflexivity.
  - apply elem_of_cons. right. apply list_elem_of_singleton. reflexivity.
  - right. reflexivity.
  - split; [exact Ht|].
    apply (He (bare_element "e" bad_attribute_type) (VStr (py "e")));
      reflexivity.
Defined.

(** ** A content that is false *)

(** X16: a content that is false (a model group without particles) is
    treated as no content at all: the description has neither
    [content_model] nor [child_elements], even when [iter_elements()] would
    yield elements. *)
Theorem false_content_omits_both (type_obj content : pyval)
    (info : TypeInfo) :
  attr_of type_obj "content" = Some content →
  truthy content = false →
  extract_type_info type_obj = Ok info →
  content_model info = None ∧ child_elements info = None.
Proof.
  intros Hc Ht (_ & -> & ->)%extract_type_info_Ok.
  unfold type_content_model, type_child_elements, attr_truthy.
  by rewrite Hc, Ht.
Qed.

Lemma false_content_omits_both_witness :
  ∃ info,
    extract_type_info
      (complex_type "t" (attribute_group [])
         (model_group false two_elements None)) = Ok info
    ∧ content_model info = None ∧ child_elements info = None.
Proof.
  eexists. split; [reflexivity|].
  apply (false_content_omits_both
           (complex_type "t" (attribute_group [])
              (model_group false two_elements None))
           (model_group false two_elements None)); reflexivity.
Defined.

(** ** The variants for named declarations *)

(** X17: when [extract_type_info] and [extract_complex_type_info] both
    return for a type, the two descriptions have the same category, content
    model, attributes and child elements; the second always says complex and
    not simple, and has the name of the first when that name is true. *)
Theorem complex_variant_agrees (type_obj : pyval) (i1 i2 : TypeInfo) :
  extract_type_info type_obj = Ok i1 →
  extract_complex_type_info type_obj = Ok i2 →
  category i2 = category i1
  ∧ content_model i2 = content_model i1
  ∧ attributes i2 = attributes i1
  ∧ child_elements i2 = child_elements i1
  ∧ is_complex i2 = true ∧ is_simple i2 = false
  ∧ type_qualified_name i2 = type_name i2
  ∧ (truthy (type_name i1) = true → type_name i2 = type_name i1).
Proof.
  unfold extract_type_info, extract_complex_type_info, qualified_or_name,
    getattr, attr_or.
  destruct (type_attributes type_obj) as [attrs|e]; simpl; [|done].
  intros [= <-].
  destruct (attr_of type_obj "qualified_name") as [q|]; simpl; [|done].
  destruct (truthy q) eqn:Hq; simpl.
  - intros [= <-]. simpl. done.
  - destruct (attr_of type_obj "name") as [n|]; simpl; [|done].
    intros [= <-]. simpl. done.
Qed.

Lemma complex_variant_agrees_witness :
  ∃ i1 i2,
    extract_type_info
      (complex_type "t" (attribute_group two_attributes)
         (model_group true two_elements None)) = Ok i1
    ∧ extract_complex_type_info
        (complex_type "t" (attribute_group two_attributes)
           (model_group true two_elements None)) = Ok i2
    ∧ attributes i2 = attributes i1
    ∧ child_elements i2 = child_elements i1
    ∧ type_name i2 = type_name i1.
Proof.
  do 2 eexists. split; [reflexivity|]. split; [reflexivity|].
  destruct (complex_variant_agrees
              (complex_type "t" (attribute_group two_attributes)
                 (model_group true two_elements None)) _ _ eq_refl eq_refl)
    as (_ & _ & Ha & Hc & _ & _ & _ & Hn).
  split; [exact Ha|]. split; [exact Hc|]. apply Hn. reflexivity.
Defined.

(** X18: the qualified name is read without a test by the helpers for
    elements and for named declarations: an object without a
    [qualified_name] attribute makes them raise [AttributeError], also when
    it has a local name, whereas [extract_type_info] gives it the name
    [None]. *)
Theorem qualified_name_required (v : pyval) :
  hasattr v "qualified_name" = false →
  extract_element_info v = Raise AttributeError
  ∧ extract_complex_type_info v = Raise AttributeError
  ∧ extract_simple_type_info v = Raise AttributeError
  ∧ (∀ info, extract_type_info v = Ok info →
       type_name info = VNone ∧ type_qualified_name info = VNone).
Proof.
  intros H.
  assert (Hn : qualified_or_name v = Raise AttributeError)
    by (unfold qualified_or_name; by rewrite (hasattr_false_getattr _ _ H)).
  unfold extract_element_info, extract_complex_type_info,
    extract_simple_type_info. rewrite Hn. simpl.
  split; [done|]. split; [done|]. split; [done|].
  intros info. unfold extract_type_info.
  destruct (type_attributes v) as [attrs|e]; simpl; [|done].
  intros [= <-]. simpl. by rewrite hasattr_false_attr_or.
Qed.

Lemma qualified_name_required_witness :
  extract_element_info (local_name_only "e") = Raise AttributeError
  ∧ extract_complex_type_info (local_name_only "e") = Raise AttributeError
  ∧ extract_simple_type_info (local_name_only "e") = Raise AttributeError
  ∧ (∀ info, extract_type_info (local_name_only "e") = Ok info →
       type_name info = VNone ∧ type_qualified_name info = VNone).
Proof.
  apply (qualified_name_required (local_name_only "e")). reflexivity.
Defined.

(** ** Elements *)

(** X19: in the description of an element the two name keys hold the same
    value: the qualified name when it is true, and otherwise the local name
    as it is, be it [None] or empty. *)
Theorem element_name_preference (element q : pyval) (info : ElementInfo) :
  extract_element_info element = Ok info →
  getattr element "qualified_name" = Ok q →
  elem_qualified_name info = elem_name info
  ∧ (truthy q = true → elem_name info = q)
  ∧ (truthy q = false → getattr element "name" = Ok (elem_name info)).
Proof.
  unfold extract_element_info, qualified_or_name. intros Hinfo Hq.
  rewrite Hq in Hinfo. simpl in Hinfo.
  destruct (truthy q) eqn:Ht.
  - simpl in Hinfo.
    destruct (getattr element "type") as [ty|]; simpl in Hinfo; [|done].
    destruct (if truthy ty then _ else _) as [ti|]; simpl in Hinfo; [|done].
    injection Hinfo as <-. done.
  - destruct (getattr element "name") as [n|]; simpl in Hinfo; [|done].
    destruct (getattr element "type") as [ty|]; simpl in Hinfo; [|done].
    destruct (if truthy ty then _ else _) as [ti|]; simpl in Hinfo; [|done].
    injection Hinfo as <-. done.
Qed.

Lemma element_name_preference_witness :
  ∃ info,
    extract_element_info (bare_element "item" (builtin_type "xs:int"))
    = Ok info
    ∧ elem_qualified_name info = elem_name info
    ∧ getattr (bare_element "item" (builtin_type "xs:int")) "name"
      = Ok (elem_name info).
Proof.
  eexists. split; [reflexivity|].
  destruct (element_name_preference
              (bare_element "item" (builtin_type "xs:int")) VNone _
              eq_refl eq_refl) as (Hsame & _ & Hlocal).
  split; [exact Hsame|]. apply Hlocal. reflexivity.
Defined.

(** X20: the [type] key of an element's description is [None] when the
    element's type is false, and otherwise the description that
    [extract_type_info] returns for the type, with its defaults and its
    omitted keys. *)
Theorem element_type_described (element ty : pyval) (info : ElementInfo) :
  extract_element_info element = Ok info →
  getattr element "type" = Ok ty →
  if truthy ty
  then ∃ ti, extract_type_info ty = Ok ti ∧ elem_type info = Some ti
  else elem_type info = None.
Proof.
  unfold extract_element_info. intros Hinfo Hty.
  destruct (qualified_or_name element) as [n|]; simpl in Hinfo; [|done].
  rewrite Hty in Hinfo. simpl in Hinfo.
  destruct (truthy ty).
  - destruct (extract_type_info ty) as [ti|]; simpl in Hinfo; [|done].
    injection Hinfo as <-. by exists ti.
  - simpl in Hinfo. by injection Hinfo as <-.
Qed.

Lemma element_type_described_witness :
  ∃ info ti,
    extract_element_info (bare_element "item" empty_group_type) = Ok info
    ∧ extract_type_info empty_group_type = Ok ti
    ∧ elem_type info = Some ti.
Proof.
  eexists.
  destruct (element_type_described (bare_element "item" empty_group_type)
              empty_group_type _ eq_refl eq_refl) as (ti & Hti & Heq).
  exists ti. split; [reflexivity|]. split; [exact Hti|exact Heq].
Defined.

(** ** Simple types *)

(** X21: a description of [extract_simple_type_info] has no restrictions;
    its base type is [None] when the type has no true [base_type], and the
    qualified name of the base otherwise; a true base without a
    [qualified_name] attribute makes the helper raise [AttributeError]. *)
Theorem simple_type_base (type_obj : pyval) :
  (∀ info, extract_simple_type_info type_obj = Ok info →
     restrictions info = VNone
     ∧ simple_category info = class_name type_obj
     ∧ match attr_truthy type_obj "base_type" with
       | Some base => getattr base "qualified_name" = Ok (base_type info)
       | None => base_type info = VNone
       end)
  ∧ (∀ base, attr_truthy type_obj "base_type" = Some base →
       hasattr base "qualified_name" = false →
       extract_simple_type_info type_obj = Raise AttributeError).
Proof.
  unfold extract_simple_type_info. split.
  - intros info.
    destruct (qualified_or_name type_obj) as [n|]; simpl; [|done].
    destruct (attr_truthy type_obj "base_type") as [base|].
    + destruct (getattr base "qualified_name") as [b|]; simpl; [|done].
      by intros [= <-].
    + simpl. by intros [= <-].
  - intros base -> Hb.
    destruct (qualified_or_name type_obj) as [n|e] eqn:Hn; simpl.
    + by rewrite (hasattr_false_getattr _ _ Hb).
    + by rewrite (qualified_or_name_Raise _ _ Hn).
Qed.

Example simple_type_base_example :
  extract_simple_type_info (simple_type "myInt" (builtin_type "xs:int"))
  = Ok {| simple_name := VStr (py "myInt");
          simple_qualified_name := VStr (py "myInt");
          simple_category := py "XsdAtomicRestriction";
          base_type := VStr (py "xs:int");
          restrictions := VNone |}.
Proof. reflexivity. Qed.

(** ** The base and its trailing slash *)

Lemma str_split_snoc_sep (sep : codepoint) (s : pystr) :
  str_split sep (s ++ [sep]) = str_split sep s ++ [[]].
Proof.
  induction s as [|c s IH]; simpl.
  - by rewrite N.eqb_refl.
  - destruct (c =? sep); [by rewrite IH|].
    rewrite IH. pose proof (str_split_nonempty sep s) as Hne.
    by destruct (str_split sep s).
Qed.

Lemma parse_path_trailing_slash (c : codepoint) (b : pystr) :
  c ≠ SLASH → parse_path ((c :: b) ++ [SLASH]) = parse_path (c :: b).
Proof.
  intros Hc. unfold parse_path, splitroot. simpl.
  apply N.eqb_neq in Hc. rewrite Hc.
  change (c :: b ++ [SLASH]) with ((c :: b) ++ [SLASH]).
  rewrite str_split_snoc_sep, filter_app.
  f_equal. exact (app_nil_r _).
Qed.

(** X22: a slash at the end of a relative base changes no path: after
    [BASE "b/"] the URI lines get the paths they get after [BASE "b"]. *)
Theorem base_trailing_slash_irrelevant (dir : PosixPath) (c : codepoint)
    (b local_path : pystr) :
  c ≠ SLASH →
  full_path dir (Some ((c :: b) ++ [SLASH])) local_path
  = full_path dir (Some (c :: b)) local_path.
Proof.
  intros Hc. unfold full_path. simpl. unfold joinpath at 2 4.
  change (c :: b ++ [SLASH]) with ((c :: b) ++ [SLASH]).
  by rewrite parse_path_trailing_slash.
Qed.

Lemma base_trailing_slash_irrelevant_witness :
  full_path (parse_path (py "/cat")) (Some (py "schemas/")) (py "foo.xsd")
  = full_path (parse_path (py "/cat")) (Some (py "schemas")) (py "foo.xsd").
Proof.
  apply (base_trailing_slash_irrelevant (parse_path (py "/cat")) 115
           (py "chemas") (py "foo.xsd")).
  discriminate.
Defined.

(** ** When the parser returns *)

Lemma parse_lines_requested (resolve : PosixPath → result PosixPath)
    (dir : PosixPath) (st st' : parser_state) (lines : list pystr) :
  parse_lines resolve dir st lines = Ok st' →
  Forall (λ path, is_ok (resolve path) = true)
    (requested_paths dir (current_base st) lines).
Proof.
  revert st. induction lines as [|l lines IH]; intros st; simpl;
    [constructor|].
  unfold process_line. destruct (read_line l) as [|b|urn p]; simpl.
  - apply IH.
  - intros H. by apply IH in H.
  - destruct (resolve (full_path dir (current_base st) p)) as [q|e] eqn:Hq;
      simpl; [|done].
    intros H. apply IH in H. constructor; [by rewrite Hq|done].
Qed.

(** X23: for a file that can be read, [parse_catalog] returns a map exactly
    when [resolve] returns for the path of every URI line, each under the
    base in force at its line; otherwise it raises. *)
Theorem parse_catalog_returns_iff (read_text : pystr → result pystr)
    (resolve : PosixPath → result PosixPath) (catalog_path text : pystr) :
  read_text catalog_path = Ok text →
  (∃ m, parse_catalog read_text resolve catalog_path = Ok m)
  ↔ Forall (λ path, is_ok (resolve path) = true)
      (requested_paths (catalog_dir_of catalog_path) None (readlines text)).
Proof.
  intros Hread. split.
  - intros [m (st & Hst & _)%(parse_catalog_Ok _ _ _ _ _ Hread)].
    by apply parse_lines_requested in Hst.
  - intros Hres.
    destruct (parse_lines_returns resolve (catalog_dir_of catalog_path)
                initial_state (readlines text) Hres) as [st Hst].
    exists (urn_map st). apply (parse_catalog_Ok _ _ _ _ _ Hread). eauto.
Qed.

Lemma parse_catalog_returns_iff_witness :
  ¬ ∃ m, parse_catalog (single_file example_path nul_catalog)
           (resolve_nolinks []) example_path = Ok m.
Proof.
  intros H.
  apply (parse_catalog_returns_iff (single_file example_path nul_catalog)
           (resolve_nolinks []) example_path nul_catalog eq_refl) in H.
  vm_compute in H.
  inversion H as [|? ? _ H2]. inversion H2 as [|? ? Hbad _].
  discriminate Hbad.
Defined.
